(** * Membership application form: validation, submission gate, composition

    A shallow embedding of [src/App.tsx] and [src/types.ts].  The React
    component [App] keeps its state in [useState] cells; here the cells are
    the fields of one record, every handler is a function on that record,
    and what a handler does to the page (focus, alert, canvas drawing,
    download) is logged in the order the source performs it. *)

From Stdlib Require Import List String Ascii ZArith NArith Bool Lia.
From Stdlib Require Import DecimalString.
From Stdlib Require Import QArith Qround Qabs Qpower Qminmax Lqa.
From Stdlib Require Import Floats.SpecFloat.
Import ListNotations.
Close Scope Q_scope.

Set Implicit Arguments.

(** ** JavaScript strings

    A JS string is a sequence of UTF-16 code units.  Literals of the source
    are written as Rocq strings (UTF-8 bytes) and decoded by [js]. *)

Module JS.

Definition jsstring := list N.

Definition cont (b : N) : N := (b - 128)%N.

Fixpoint utf16_of_utf8 (l : list N) : jsstring :=
  match l with
  | [] => []
  | b0 :: r0 =>
      if (b0 <? 128)%N then b0 :: utf16_of_utf8 r0
      else if (b0 <? 224)%N then
        match r0 with
        | b1 :: r1 => ((b0 - 192) * 64 + cont b1)%N :: utf16_of_utf8 r1
        | [] => []
        end
      else if (b0 <? 240)%N then
        match r0 with
        | b1 :: b2 :: r2 =>
            ((b0 - 224) * 4096 + cont b1 * 64 + cont b2)%N :: utf16_of_utf8 r2
        | _ => []
        end
      else
        match r0 with
        | b1 :: b2 :: b3 :: r3 =>
            let cp := ((b0 - 240) * 262144 + cont b1 * 4096
                       + cont b2 * 64 + cont b3 - 65536)%N in
            (55296 + cp / 1024)%N :: (56320 + cp mod 1024)%N
              :: utf16_of_utf8 r3
        | _ => []
        end
  end.

Definition js (s : string) : jsstring :=
  utf16_of_utf8 (map (fun b => N_of_ascii (ascii_of_byte b)) (list_byte_of_string s)).

(** [!s] for a string: only the empty string is falsy. *)
Definition falsy (s : jsstring) : bool :=
  match s with [] => true | _ :: _ => false end.

(** [!v] for [string | null] and [string | undefined]. *)
Definition falsy_opt (v : option jsstring) : bool :=
  match v with None => true | Some s => falsy s end.

Definition jsstring_eq_dec : forall a b : jsstring, {a = b} + {a <> b} :=
  list_eq_dec N.eq_dec.

End JS.
Import JS.

(** ** [types.ts]: the form record *)

Record FormData := mkFormData {
  affiliation : jsstring;
  nameKorean : jsstring;
  nameEnglish : jsstring;
  membershipType : jsstring;
  gender : jsstring;
  email : jsstring;
  phoneApplicant : jsstring;
  guardianRelationship : jsstring;
  guardianName : jsstring;
  guardianPhone : jsstring;
  address : jsstring;
  signature : jsstring;
  dateOfBirth : jsstring
}.

(** [keyof FormData]. *)
Inductive Field :=
| Kaffiliation | KnameKorean | KnameEnglish | KmembershipType | Kgender
| Kemail | KphoneApplicant | KguardianRelationship | KguardianName
| KguardianPhone | Kaddress | Ksignature | KdateOfBirth.

Definition FormData_keys : list Field :=
  [Kaffiliation; KnameKorean; KnameEnglish; KmembershipType; Kgender;
   Kemail; KphoneApplicant; KguardianRelationship; KguardianName;
   KguardianPhone; Kaddress; Ksignature; KdateOfBirth].

(** [formData[name]]. *)
Definition get_field (name : Field) (d : FormData) : jsstring :=
  match name with
  | Kaffiliation => affiliation d
  | KnameKorean => nameKorean d
  | KnameEnglish => nameEnglish d
  | KmembershipType => membershipType d
  | Kgender => gender d
  | Kemail => email d
  | KphoneApplicant => phoneApplicant d
  | KguardianRelationship => guardianRelationship d
  | KguardianName => guardianName d
  | KguardianPhone => guardianPhone d
  | Kaddress => address d
  | Ksignature => signature d
  | KdateOfBirth => dateOfBirth d
  end.

(** [{ ...prev, [name]: value }] on a [FormData]. *)
Definition set_field (name : Field) (value : jsstring) (d : FormData) : FormData :=
  let 'mkFormData a nk ne mt g e pa gr gn gp ad sg db := d in
  match name with
  | Kaffiliation => mkFormData value nk ne mt g e pa gr gn gp ad sg db
  | KnameKorean => mkFormData a value ne mt g e pa gr gn gp ad sg db
  | KnameEnglish => mkFormData a nk value mt g e pa gr gn gp ad sg db
  | KmembershipType => mkFormData a nk ne value g e pa gr gn gp ad sg db
  | Kgender => mkFormData a nk ne mt value e pa gr gn gp ad sg db
  | Kemail => mkFormData a nk ne mt g value pa gr gn gp ad sg db
  | KphoneApplicant => mkFormData a nk ne mt g e value gr gn gp ad sg db
  | KguardianRelationship => mkFormData a nk ne mt g e pa value gn gp ad sg db
  | KguardianName => mkFormData a nk ne mt g e pa gr value gp ad sg db
  | KguardianPhone => mkFormData a nk ne mt g e pa gr gn value ad sg db
  | Kaddress => mkFormData a nk ne mt g e pa gr gn gp value sg db
  | Ksignature => mkFormData a nk ne mt g e pa gr gn gp ad value db
  | KdateOfBirth => mkFormData a nk ne mt g e pa gr gn gp ad sg value
  end.

(** The keys of the [errors] object: [keyof FormData | 'profileImage']. *)
Inductive ErrKey :=
| KprofileImage
| Kfield (f : Field).

Definition Field_eq_dec : forall a b : Field, {a = b} + {a <> b}.
Proof. decide equality. Defined.

Definition ErrKey_eq_dec : forall a b : ErrKey, {a = b} + {a <> b}.
Proof. decide equality. apply Field_eq_dec. Defined.

Definition field_name (f : Field) : string :=
  match f with
  | Kaffiliation => "affiliation"
  | KnameKorean => "nameKorean"
  | KnameEnglish => "nameEnglish"
  | KmembershipType => "membershipType"
  | Kgender => "gender"
  | Kemail => "email"
  | KphoneApplicant => "phoneApplicant"
  | KguardianRelationship => "guardianRelationship"
  | KguardianName => "guardianName"
  | KguardianPhone => "guardianPhone"
  | Kaddress => "address"
  | Ksignature => "signature"
  | KdateOfBirth => "dateOfBirth"
  end.

Definition key_name (k : ErrKey) : string :=
  match k with
  | KprofileImage => "profileImage"
  | Kfield f => field_name f
  end.

(** ** The [errors] object

    A JS object keeps its string keys in insertion order, and
    [Object.keys] lists them in that order.  Writing to an existing key
    keeps its place; a property set to [undefined] stays a key. *)

Module Obj.

Definition t := list (ErrKey * option jsstring).

Definition empty : t := [].

Definition keys (o : t) : list ErrKey := map fst o.

(** [o[k]]: [None] is [undefined], for an absent key as for one that holds
    [undefined]. *)
Fixpoint get (k : ErrKey) (o : t) : option jsstring :=
  match o with
  | [] => None
  | (k', v) :: r => if ErrKey_eq_dec k' k then v else get k r
  end.

(** [{ ...o, [k]: v }], and [o[k] = v] on a fresh object. *)
Fixpoint set (k : ErrKey) (v : option jsstring) (o : t) : t :=
  match o with
  | [] => [(k, v)]
  | (k', v') :: r =>
      if ErrKey_eq_dec k' k then (k', v) :: r else (k', v') :: set k v r
  end.

End Obj.

(** ** Component state ([useState] cells of [App]) *)

Record AppState := mkState {
  formData : FormData;
  profileImage : option jsstring;
  englishNameWarning : jsstring;
  isPledgeModalOpen : bool;
  isBenefitsModalOpen : bool;
  pledgeChecked : bool;
  benefitsChecked : bool;
  errors : Obj.t
}.

Definition emptyFormData : FormData :=
  mkFormData [] [] [] [] [] [] [] [] [] [] [] [] [].

Definition initialState : AppState :=
  mkState emptyFormData None [] false false false false Obj.empty.

Definition setFormData (d : FormData) (s : AppState) : AppState :=
  mkState d (profileImage s) (englishNameWarning s) (isPledgeModalOpen s)
    (isBenefitsModalOpen s) (pledgeChecked s) (benefitsChecked s) (errors s).

Definition setProfileImage (p : option jsstring) (s : AppState) : AppState :=
  mkState (formData s) p (englishNameWarning s) (isPledgeModalOpen s)
    (isBenefitsModalOpen s) (pledgeChecked s) (benefitsChecked s) (errors s).

Definition setEnglishNameWarning (w : jsstring) (s : AppState) : AppState :=
  mkState (formData s) (profileImage s) w (isPledgeModalOpen s)
    (isBenefitsModalOpen s) (pledgeChecked s) (benefitsChecked s) (errors s).

Definition setIsPledgeModalOpen (b : bool) (s : AppState) : AppState :=
  mkState (formData s) (profileImage s) (englishNameWarning s) b
    (isBenefitsModalOpen s) (pledgeChecked s) (benefitsChecked s) (errors s).

Definition setIsBenefitsModalOpen (b : bool) (s : AppState) : AppState :=
  mkState (formData s) (profileImage s) (englishNameWarning s)
    (isPledgeModalOpen s) b (pledgeChecked s) (benefitsChecked s) (errors s).

Definition setPledgeChecked (b : bool) (s : AppState) : AppState :=
  mkState (formData s) (profileImage s) (englishNameWarning s)
    (isPledgeModalOpen s) (isBenefitsModalOpen s) b (benefitsChecked s)
    (errors s).

Definition setBenefitsChecked (b : bool) (s : AppState) : AppState :=
  mkState (formData s) (profileImage s) (englishNameWarning s)
    (isPledgeModalOpen s) (isBenefitsModalOpen s) (pledgeChecked s) b
    (errors s).

Definition setErrors (e : Obj.t) (s : AppState) : AppState :=
  mkState (formData s) (profileImage s) (englishNameWarning s)
    (isPledgeModalOpen s) (isBenefitsModalOpen s) (pledgeChecked s)
    (benefitsChecked s) e.

(** ** [validateForm] (App.tsx 123-142) *)

Definition msg_profileImage : jsstring := js "프로필 사진을 업로드해주세요.".
Definition msg_affiliation : jsstring := js "소속 단체명을 선택해주세요.".
Definition msg_nameKorean : jsstring := js "한글 성명을 입력해주세요.".
Definition msg_nameEnglish : jsstring := js "영문 성명을 입력해주세요.".
Definition msg_membershipType : jsstring := js "가입 구분을 선택해주세요.".
Definition msg_gender : jsstring := js "성별을 선택해주세요.".
Definition msg_email : jsstring := js "이메일 주소를 입력해주세요.".
Definition msg_phoneApplicant : jsstring := js "신청자 핸드폰 번호를 입력해주세요.".
Definition msg_guardianRelationship : jsstring := js "보호자와의 관계를 선택해주세요.".
Definition msg_guardianName : jsstring := js "보호자 성명을 입력해주세요.".
Definition msg_guardianPhone : jsstring := js "보호자 핸드폰 번호를 입력해주세요.".
Definition msg_address : jsstring := js "전체 주소를 입력해주세요.".
Definition msg_signature : jsstring := js "서명을 입력해주세요.".
Definition msg_dateOfBirth : jsstring := js "생년월일을 입력해주세요.".

(** [if (c) newErrors.k = m;] *)
Definition assign_if (c : bool) (k : ErrKey) (m : jsstring) (o : Obj.t) : Obj.t :=
  if c then Obj.set k (Some m) o else o.

Definition newErrors_of (d : FormData) (img : option jsstring) : Obj.t :=
  let newErrors := Obj.empty in
  let newErrors := assign_if (falsy_opt img) KprofileImage msg_profileImage newErrors in
  let newErrors := assign_if (falsy (affiliation d)) (Kfield Kaffiliation) msg_affiliation newErrors in
  let newErrors := assign_if (falsy (nameKorean d)) (Kfield KnameKorean) msg_nameKorean newErrors in
  let newErrors := assign_if (falsy (nameEnglish d)) (Kfield KnameEnglish) msg_nameEnglish newErrors in
  let newErrors := assign_if (falsy (membershipType d)) (Kfield KmembershipType) msg_membershipType newErrors in
  let newErrors := assign_if (falsy (gender d)) (Kfield Kgender) msg_gender newErrors in
  let newErrors := assign_if (falsy (email d)) (Kfield Kemail) msg_email newErrors in
  let newErrors := assign_if (falsy (phoneApplicant d)) (Kfield KphoneApplicant) msg_phoneApplicant newErrors in
  let newErrors := assign_if (falsy (guardianRelationship d)) (Kfield KguardianRelationship) msg_guardianRelationship newErrors in
  let newErrors := assign_if (falsy (guardianName d)) (Kfield KguardianName) msg_guardianName newErrors in
  let newErrors := assign_if (falsy (guardianPhone d)) (Kfield KguardianPhone) msg_guardianPhone newErrors in
  let newErrors := assign_if (falsy (address d)) (Kfield Kaddress) msg_address newErrors in
  let newErrors := assign_if (falsy (signature d)) (Kfield Ksignature) msg_signature newErrors in
  let newErrors := assign_if (falsy (dateOfBirth d)) (Kfield KdateOfBirth) msg_dateOfBirth newErrors in
  newErrors.

(** Returns the state after [setErrors(newErrors)] and the boolean result. *)
Definition validateForm (s : AppState) : AppState * bool :=
  let newErrors := newErrors_of (formData s) (profileImage s) in
  (setErrors newErrors s, Nat.eqb (List.length (Obj.keys newErrors)) 0).



(** ** Numbers and dates

    [calculateGrade] only subtracts, adds and compares the integers a [Date]
    reports, so a number is an integer or [NaN] (what the getters of an
    invalid [Date] return).  Every comparison with [NaN] is false. *)

Module Num.

Inductive num := NaN | Int (z : Z).

Definition sub (a b : num) : num :=
  match a, b with Int x, Int y => Int (x - y) | _, _ => NaN end.

Definition add (a b : num) : num :=
  match a, b with Int x, Int y => Int (x + y) | _, _ => NaN end.

Definition lt (a b : num) : bool :=
  match a, b with Int x, Int y => (x <? y)%Z | _, _ => false end.

Definition ge (a b : num) : bool :=
  match a, b with Int x, Int y => (y <=? x)%Z | _, _ => false end.

(** [a === b] *)
Definition seq (a b : num) : bool :=
  match a, b with Int x, Int y => (x =? y)%Z | _, _ => false end.

(** The text a template literal puts for a number. *)
Definition toString (a : num) : jsstring :=
  match a with
  | NaN => js "NaN"
  | Int z => js (NilZero.string_of_int (Z.to_int z))
  end.

End Num.
Import Num.

Record JSDate := mkDate {
  getFullYear : num;
  getMonth : num;
  getDate : num
}.

(** ** [calculateGrade] (App.tsx 104-121)

    [newDate] is [new Date(birthDate)] and [today] is [new Date()]; both
    come from the JavaScript runtime. *)

Definition label_high : jsstring := js "고".
Definition label_middle : jsstring := js "중".
Definition label_elementary : jsstring := js "초".
Definition label_preschool : jsstring := js "미취학".

Definition calculateGrade (newDate : jsstring -> JSDate) (today : JSDate)
    (birthDate : jsstring) : jsstring :=
  if falsy birthDate then []
  else
    let birth := newDate birthDate in
    let age := sub (getFullYear today) (getFullYear birth) in
    let m := sub (getMonth today) (getMonth birth) in
    let age :=
      if lt m (Int 0) || (seq m (Int 0) && lt (getDate today) (getDate birth))
      then sub age (Int 1) else age in
    let koreanAge := add age (Int 1) in
    if ge koreanAge (Int 17) then label_high ++ toString (sub koreanAge (Int 16))
    else if ge koreanAge (Int 14) then label_middle ++ toString (sub koreanAge (Int 13))
    else if ge koreanAge (Int 8) then label_elementary ++ toString (sub koreanAge (Int 7))
    else if ge koreanAge (Int 1) then label_preschool
    else [].

(** ** Field handlers (App.tsx 71-102) *)

(** [errors[name]] used as a condition. *)
Definition has_error (k : ErrKey) (o : Obj.t) : bool :=
  negb (falsy_opt (Obj.get k o)).

Definition handleChange (name : Field) (value : jsstring) (s : AppState) : AppState :=
  let s := setFormData (set_field name value (formData s)) s in
  if has_error (Kfield name) (errors s)
  then setErrors (Obj.set (Kfield name) None (errors s)) s
  else s.

(** [\s] of a JavaScript regular expression. *)
Definition is_js_whitespace (c : N) : bool :=
  ((9 <=? c) && (c <=? 13) || (c =? 32) || (c =? 160) || (c =? 5760)
   || (8192 <=? c) && (c <=? 8202) || (c =? 8232) || (c =? 8233)
   || (c =? 8239) || (c =? 8287) || (c =? 12288) || (c =? 65279))%N.

(** The class [[A-Za-z\s-]]. *)
Definition english_name_char (c : N) : bool :=
  ((65 <=? c) && (c <=? 90) || (97 <=? c) && (c <=? 122))%N
  || is_js_whitespace c || (c =? 45)%N.

(** [/^[A-Za-z\s-]*$/.test(value)] *)
Definition regex_test (value : jsstring) : bool :=
  forallb english_name_char value.

Definition msg_englishNameWarning : jsstring :=
  js "영문, 공백, 하이픈(-)만 입력 가능합니다.".

Definition handleEnglishNameChange (value : jsstring) (s : AppState) : AppState :=
  if regex_test value then
    let s1 := setFormData (set_field KnameEnglish value (formData s)) s in
    let s1 := setEnglishNameWarning [] s1 in
    if has_error (Kfield KnameEnglish) (errors s)
    then setErrors (Obj.set (Kfield KnameEnglish) None (errors s1)) s1
    else s1
  else setEnglishNameWarning msg_englishNameWarning s.

(** [reader.onload] of [handleImageUpload]: [result] is
    [event.target?.result]; [closure_errors] is the [errors] of the render
    in which the file was chosen, which the callback closes over. *)
Definition handleImageUpload_onload (closure_errors : Obj.t)
    (result : option jsstring) (s : AppState) : AppState :=
  let s := setProfileImage result s in
  if has_error KprofileImage closure_errors
  then setErrors (Obj.set KprofileImage None (errors s)) s
  else s.

(** ** Acknowledgment controls (App.tsx 368, 372, 406, 432) *)

Definition benefitsCheckbox_onChange (checked : bool) (s : AppState) : AppState :=
  let s := setBenefitsChecked checked s in
  if checked then setIsBenefitsModalOpen true s else s.

Definition pledgeCheckbox_onChange (checked : bool) (s : AppState) : AppState :=
  if checked then setIsPledgeModalOpen true s else setPledgeChecked false s.

Definition pledgeModal_confirm (s : AppState) : AppState :=
  setPledgeChecked true (setIsPledgeModalOpen false s).

Definition benefitsModal_confirm (s : AppState) : AppState :=
  setIsBenefitsModalOpen false s.



(** ** The page

    What [handleSubmit] can observe of the document: for every element its
    [id], whether it lies under the [formRef] element, whether it carries
    the class [print-ignore], and its inline [style.visibility]. *)

Inductive Visibility := VisUnset | VisHidden | VisVisible.

Record Elem := mkElem {
  el_id : option string;
  el_inForm : bool;
  el_printIgnore : bool;
  el_visibility : Visibility
}.

Definition Document := list Elem.

(** The elements of the JSX of [App] that have an [id] or the class
    [print-ignore], in document order (App.tsx 213-383). *)
Definition renderedDocument : Document :=
  [ mkElem None true true VisUnset;
    mkElem (Some "affiliation") true false VisUnset;
    mkElem (Some "nameKorean") true false VisUnset;
    mkElem (Some "nameEnglish") true false VisUnset;
    mkElem (Some "dateOfBirth") true false VisUnset;
    mkElem (Some "grade") true false VisUnset;
    mkElem (Some "email") true false VisUnset;
    mkElem (Some "phoneApplicant") true false VisUnset;
    mkElem (Some "address") true false VisUnset;
    mkElem (Some "guardianRelationship") true false VisUnset;
    mkElem (Some "guardianName") true false VisUnset;
    mkElem (Some "guardianPhone") true false VisUnset;
    mkElem (Some "signature") true false VisUnset;
    mkElem None false true VisUnset ]%string.

Definition has_id (id : string) (e : Elem) : bool :=
  match el_id e with Some i => String.eqb i id | None => false end.

(** [document.getElementById(id)]: [None] is [null]. *)
Definition getElementById (id : string) (doc : Document) : option Elem :=
  find (has_id id) doc.

(** [element.querySelectorAll('.print-ignore')] selects these. *)
Definition selected (e : Elem) : bool := el_inForm e && el_printIgnore e.

Definition set_visibility (v : Visibility) (e : Elem) : Elem :=
  mkElem (el_id e) (el_inForm e) (el_printIgnore e) v.

(** [elementsToHide.forEach(el => el.style.visibility = v)] *)
Definition forEach_visibility (v : Visibility) (doc : Document) : Document :=
  map (fun e => if selected e then set_visibility v e else e) doc.

Record Canvas := mkCanvas { width : N; height : N }.

(** What a handler does to the page, besides the visibility changes. *)
Inductive Effect :=
| Focus (id : option string)
| ScrollIntoView (id : option string)
| Alert (message : jsstring)
| Html2canvas (scale : N)
| FillRect (w h : N)
| FillText (text : jsstring)
| DrawImage (c : Canvas)
| Download (filename : jsstring).

Record World := mkWorld {
  document : Document;
  log : list Effect
}.

(** ** A procedure either completes or throws, and changes the page *)

Inductive Completion (A : Type) :=
| Normal (a : A)
| Throw.
Arguments Throw {A}.

Definition Proc (A : Type) := World -> Completion A * World.

Definition ret {A} (a : A) : Proc A := fun w => (Normal a, w).

Definition throw {A} : Proc A := fun w => (Throw, w).

Definition bind {A B} (m : Proc A) (k : A -> Proc B) : Proc B :=
  fun w =>
    match m w with
    | (Normal a, w') => k a w'
    | (Throw, w') => (Throw, w')
    end.

Declare Scope proc_scope.
Delimit Scope proc_scope with proc.
Notation "x <- m ;; k" := (bind m (fun x => k))
  (at level 61, m at next level, right associativity) : proc_scope.
Notation "m ;; k" := (bind m (fun _ => k))
  (at level 61, right associativity) : proc_scope.

Definition emit (e : Effect) : Proc unit :=
  fun w => (Normal tt, mkWorld (document w) (log w ++ [e])).

Definition update_document (f : Document -> Document) : Proc unit :=
  fun w => (Normal tt, mkWorld (f (document w)) (log w)).

Definition read_document : Proc Document :=
  fun w => (Normal (document w), w).

(** ** [handleSubmit] (App.tsx 145-206) *)

Definition msg_pledgeRequired : jsstring :=
  js "서약서에 동의해주셔야 제출이 가능합니다.".

Definition title : jsstring := js "국제청소년로봇연맹 로봇봉사단 입회신청서".

Definition a4Width : N := 1240.
Definition a4Height : N := 1754.

(** [s.replace(/\./g, '').replace(/ /g, '')] *)
Definition strip_date (s : jsstring) : jsstring :=
  filter (fun c => negb (c =? 32)%N)
    (filter (fun c => negb (c =? 46)%N) s).

(** The string [getElementById] receives for [Object.keys(errors)[0]]. *)
Definition key_id (k : option ErrKey) : string :=
  match k with
  | Some k => key_name k
  | None => "undefined"
  end.

(** What the browser supplies: how the promise of [html2canvas] settles
    ([None]: it rejects), whether [getContext('2d')] yields a context,
    whether [formRef.current] is set, and
    [today.toLocaleDateString('ko-KR')]. *)
Record Browser := mkBrowser {
  html2canvas : Document -> option Canvas;
  getContext2d : bool;
  formRef_current : bool;
  localeDate : jsstring
}.

Section Submit.

Variable browser : Browser.

Local Open Scope proc_scope.

(** [await html2canvas(element, { scale: 2 })] *)
Definition await_html2canvas : Proc Canvas :=
  emit (Html2canvas 2) ;;
  doc <- read_document ;;
  match html2canvas browser doc with
  | Some canvas => ret canvas
  | None => throw
  end.

(** Lines 160-205.  The position and size handed to [drawImage] are
    double-precision numbers and are left out of the logged effect. *)
Definition compose (d : FormData) : Proc unit :=
  if formRef_current browser then
    update_document (forEach_visibility VisHidden) ;;
    canvas <- await_html2canvas ;;
    update_document (forEach_visibility VisVisible) ;;
    (if getContext2d browser then
       emit (FillRect a4Width a4Height) ;;
       emit (FillText title) ;;
       emit (DrawImage canvas)
     else ret tt) ;;
    let formattedDate := strip_date (localeDate browser) in
    emit (Download (nameKorean d ++ js "_" ++ formattedDate ++ js "_입회신청서.jpeg"))
  else ret tt.

(** [errors] inside the handler is the value of the render that created
    it, that is the [errors] of [s]; [setErrors] of [validateForm] shows in
    the returned state only. *)
Definition handleSubmit (s : AppState) : AppState * Proc unit :=
  let (s', valid) := validateForm s in
  (s',
   if negb valid then
     let firstErrorKey := hd_error (Obj.keys (errors s)) in
     doc <- read_document ;;
     match getElementById (key_id firstErrorKey) doc with
     | Some firstErrorElement =>
         emit (Focus (el_id firstErrorElement)) ;;
         emit (ScrollIntoView (el_id firstErrorElement))
     | None => ret tt
     end
   else if negb (pledgeChecked s) then
     emit (Alert msg_pledgeRequired)
   else compose (formData s)).

End Submit.

(** ** The rendered interface

    One event per wired control.  [available] tells which events the
    interface rendered from a state can deliver: a modal's button exists
    only while the modal is open, a controlled checkbox reports the
    opposite of the value it shows, the Latin-name input is wired to its own
    handler, and a disabled button delivers no click. *)

Inductive Event :=
| Change (name : Field) (value : jsstring)
| EnglishNameChange (value : jsstring)
| ImageLoaded (closure_errors : Obj.t) (result : option jsstring)
| BenefitsCheckbox (checked : bool)
| PledgeCheckbox (checked : bool)
| PledgeConfirm
| BenefitsConfirm
| SubmitClick.

(** [disabled={!pledgeChecked}] on the submit button. *)
Definition submitButton_disabled (s : AppState) : bool :=
  negb (pledgeChecked s).

Definition available (s : AppState) (e : Event) : bool :=
  match e with
  | Change name _ => if Field_eq_dec name KnameEnglish then false else true
  | EnglishNameChange _ => true
  | ImageLoaded _ _ => true
  | BenefitsCheckbox checked => Bool.eqb checked (negb (benefitsChecked s))
  | PledgeCheckbox checked => Bool.eqb checked (negb (pledgeChecked s))
  | PledgeConfirm => isPledgeModalOpen s
  | BenefitsConfirm => isBenefitsModalOpen s
  | SubmitClick => negb (submitButton_disabled s)
  end.

Section Step.

Variable browser : Browser.

Definition step (e : Event) (s : AppState) : AppState * Proc unit :=
  match e with
  | Change name value => (handleChange name value s, ret tt)
  | EnglishNameChange value => (handleEnglishNameChange value s, ret tt)
  | ImageLoaded closure_errors result =>
      (handleImageUpload_onload closure_errors result s, ret tt)
  | BenefitsCheckbox checked => (benefitsCheckbox_onChange checked s, ret tt)
  | PledgeCheckbox checked => (pledgeCheckbox_onChange checked s, ret tt)
  | PledgeConfirm => (pledgeModal_confirm s, ret tt)
  | BenefitsConfirm => (benefitsModal_confirm s, ret tt)
  | SubmitClick => handleSubmit browser s
  end.

(** The state after a sequence of events. *)
Fixpoint run (trace : list Event) (s : AppState) : AppState :=
  match trace with
  | [] => s
  | e :: rest => run rest (fst (step e s))
  end.

End Step.

(** The effects a run added to the log. *)
Definition new_effects (w w' : World) : list Effect :=
  skipn (List.length (log w)) (log w').

(** Effects that only the composition pipeline (lines 160-205) produces. *)
Definition is_composition_effect (e : Effect) : bool :=
  match e with
  | Html2canvas _ | FillRect _ _ | FillText _ | DrawImage _ | Download _ => true
  | Focus _ | ScrollIntoView _ | Alert _ => false
  end.

(** ** Vocabulary of the specification *)

(** The order in which [validateForm] records missing values. *)
Definition validation_order : list ErrKey :=
  KprofileImage :: map Kfield FormData_keys.

(** The canonical field order of the specification (section 6): the
    thirteen fields, then attachment presence. *)
Definition canonical_order : list ErrKey :=
  map Kfield FormData_keys ++ [KprofileImage].

(** A required value is empty or unset. *)
Definition missing (s : AppState) (k : ErrKey) : bool :=
  match k with
  | KprofileImage => falsy_opt (profileImage s)
  | Kfield f => falsy (get_field f (formData s))
  end.

(** The fixed message of each required value. *)
Definition message (k : ErrKey) : jsstring :=
  match k with
  | KprofileImage => msg_profileImage
  | Kfield Kaffiliation => msg_affiliation
  | Kfield KnameKorean => msg_nameKorean
  | Kfield KnameEnglish => msg_nameEnglish
  | Kfield KmembershipType => msg_membershipType
  | Kfield Kgender => msg_gender
  | Kfield Kemail => msg_email
  | Kfield KphoneApplicant => msg_phoneApplicant
  | Kfield KguardianRelationship => msg_guardianRelationship
  | Kfield KguardianName => msg_guardianName
  | Kfield KguardianPhone => msg_guardianPhone
  | Kfield Kaddress => msg_address
  | Kfield Ksignature => msg_signature
  | Kfield KdateOfBirth => msg_dateOfBirth
  end.

(** The entry of a missing value, and one [if] of [validateForm]. *)
Definition entry (k : ErrKey) : ErrKey * option jsstring := (k, Some (message k)).

Definition record_missing (s : AppState) (o : Obj.t) (k : ErrKey) : Obj.t :=
  assign_if (missing s k) k (message k) o.

(** The focus the specification asks for on a failed attempt: the first
    missing value in the canonical order, when an element has its id. *)
Definition canonical_focus (s : AppState) (doc : Document) : list Effect :=
  match find (missing s) canonical_order with
  | Some k =>
      match getElementById (key_name k) doc with
      | Some el => [Focus (el_id el); ScrollIntoView (el_id el)]
      | None => []
      end
  | None => []
  end.

(** The whole string is in the class {A-Z, a-z, whitespace, hyphen}. *)
Definition latin_name_char (c : N) : Prop :=
  (65 <= c <= 90)%N \/ (97 <= c <= 122)%N
  \/ is_js_whitespace c = true \/ c = 45%N.

Definition matches_latin_class (value : jsstring) : Prop :=
  Forall latin_name_char value.

(** The current month/day is earlier than the birth month/day. *)
Definition precedes (cm cd bm bd : Z) : Prop :=
  (cm < bm \/ (cm = bm /\ cd < bd))%Z.

(** The cells a field handler never writes. *)
Definition same_gate (s s' : AppState) : Prop :=
  isPledgeModalOpen s' = isPledgeModalOpen s
  /\ isBenefitsModalOpen s' = isBenefitsModalOpen s
  /\ pledgeChecked s' = pledgeChecked s
  /\ benefitsChecked s' = benefitsChecked s.

(** ** Sample inputs *)

Definition filledFormData : FormData :=
  mkFormData (js "Seoul Robot Club") (js "김민수") (js "Kim Min-su")
    (js "개인") (js "남") (js "kim@example.com") (js "010-1234-5678")
    (js "부") (js "김철수") (js "010-8765-4321") (js "Seoul") (js "김민수")
    (js "2010-05-20").

Definition filledState : AppState :=
  mkState filledFormData (Some (js "data:image/png;base64,AAAA")) []
    false false true false Obj.empty.

Definition sampleBirthDate : jsstring := js "2010-05-20".

(** [new Date("2010-05-20")] in the Korean time zone: 20 May 2010. *)
Definition sampleNewDate (_ : jsstring) : JSDate :=
  mkDate (Int 2010) (Int 4) (Int 20).

(** 2 November 2026. *)
Definition sampleToday : JSDate := mkDate (Int 2026) (Int 10) (Int 2).

(** The state after a first attempt on the empty form with the pledge
    confirmed: every required value is recorded as missing. *)
Definition rejectedState : AppState :=
  fst (validateForm (pledgeModal_confirm (pledgeCheckbox_onChange true initialState))).

(** A browser in which the capture yields a 1600 x 2400 canvas. *)
Definition sampleBrowser : Browser :=
  mkBrowser (fun _ => Some (mkCanvas 1600 2400)) true true (js "2026. 11. 2.").

(** A browser in which the promise of [html2canvas] rejects. *)
Definition failingBrowser : Browser :=
  mkBrowser (fun _ => None) true true (js "2026. 11. 2.").

(** The filled form with the e-mail address emptied. *)
Definition noEmailState : AppState :=
  setFormData (set_field Kemail [] filledFormData) filledState.

(** A record whose local name and gender are missing, after a first
    rejected attempt. *)
Definition namelessState : AppState :=
  fst (validateForm
         (setFormData (set_field Kgender [] (set_field KnameKorean [] filledFormData))
            filledState)).

Definition renderedWorld : World := mkWorld renderedDocument [].

(** ** Further vocabulary *)

(** States the rendered interface can be brought to from the first
    render. *)
Inductive reachable (b : Browser) : AppState -> Prop :=
| reachable_init : reachable b initialState
| reachable_step : forall s e,
    reachable b s -> available s e = true -> reachable b (fst (step b e s)).

(** An entry of [errors] holds [undefined] or the fixed message of its
    key, and no key occurs twice. *)
Definition entry_wf (kv : ErrKey * option jsstring) : Prop :=
  snd kv = None \/ snd kv = Some (message (fst kv)).

Definition errors_wf (o : Obj.t) : Prop :=
  NoDup (Obj.keys o) /\ Forall entry_wf o.

(** [v && <p>{v}</p>]: the text of the paragraph, if one is rendered. *)
Definition rendered_text (v : option jsstring) : option jsstring :=
  match v with
  | Some (c :: r) => Some (c :: r)
  | _ => None
  end.

(** The message rendered under the control of a key (App.tsx 41, 233,
    238-239, 255, 284, 299, 311, 332, 362).  Under the Latin-name input the
    warning comes first and the error only shows without it. *)
Definition messageUnder (s : AppState) (k : ErrKey) : option jsstring :=
  match k with
  | Kfield KnameEnglish =>
      if falsy (englishNameWarning s)
      then rendered_text (Obj.get k (errors s))
      else Some (englishNameWarning s)
  | _ => rendered_text (Obj.get k (errors s))
  end.

(** A date is later than another (year, month, day). *)
Definition date_after (y1 m1 d1 y2 m2 d2 : Z) : Prop :=
  (y2 < y1 \/ (y1 = y2 /\ (m2 < m1 \/ (m1 = m2 /\ d2 < d1))))%Z.

(** Two states agree on everything but the benefits cells. *)
Definition only_benefits_differ (s s' : AppState) : Prop :=
  formData s' = formData s
  /\ profileImage s' = profileImage s
  /\ englishNameWarning s' = englishNameWarning s
  /\ errors s' = errors s
  /\ pledgeChecked s' = pledgeChecked s
  /\ isPledgeModalOpen s' = isPledgeModalOpen s.

(** Affiliation and local name are missing, after a first rejected
    attempt. *)
Definition twoMissingState : AppState :=
  fst (validateForm
         (setFormData
            (set_field Kaffiliation [] (set_field KnameKorean [] filledFormData))
            filledState)).

(** ** Numbers of the composition (App.tsx 187-195)

    The numbers of lines 187-195 are IEEE 754 binary64 values.  A finite
    binary64 value is an exact rational, and every operation yields the
    exact result rounded to the nearest value with a 53-bit significand,
    ties to even, with the subnormal spacing [2^-1074] below [2^-1022].
    The rounding is written out on [Q].  Overflow and division by zero do
    not occur in these lines for a canvas of positive size and are not
    modelled. *)

Module Double.

Local Open Scope Q_scope.

Definition pow2 (e : Z) : Q := 2 ^ e.

(** [floor (log2 x)] for a positive [x]. *)
Definition ilog2 (x : Q) : Z :=
  let l := (Z.log2 (Qnum x) - Z.log2 (Zpos (Qden x)))%Z in
  if Qle_bool (pow2 l) x then l else (l - 1)%Z.

(** The nearest integer, ties to even. *)
Definition rne (m : Q) : Z :=
  let f := Qfloor m in
  match Qcompare (m - inject_Z f) (1 # 2) with
  | Lt => f
  | Gt => (f + 1)%Z
  | Eq => if Z.even f then f else (f + 1)%Z
  end.

(** The exponent of the last place of [x]. *)
Definition exponent (x : Q) : Z := Z.max (ilog2 (Qabs x) - 52) (-1074).

Definition round (x : Q) : Q :=
  let e := exponent x in
  Qred (inject_Z (rne (x / pow2 e)) * pow2 e).

Definition div (a b : Q) : Q := round (a / b).
Definition mul (a b : Q) : Q := round (a * b).
Definition add (a b : Q) : Q := round (a + b).
Definition sub (a b : Q) : Q := round (a - b).

(** [Math.min] *)
Definition min (a b : Q) : Q := if Qle_bool a b then a else b.

End Double.

(** The arithmetic lines 187-195 are written in. *)
Record Arithmetic (T : Type) := mkArithmetic {
  number : Z -> T;
  a_div : T -> T -> T;
  a_mul : T -> T -> T;
  a_add : T -> T -> T;
  a_sub : T -> T -> T;
  a_min : T -> T -> T
}.

(** binary64 with the rounding written out on [Q]: the arithmetic of the
    code. *)
Definition binary64 : Arithmetic Q :=
  mkArithmetic inject_Z Double.div Double.mul Double.add Double.sub Double.min.

(** binary64 as the Standard Library specifies it ([SpecFloat], precision
    53, [emax] 1024), to compare with. *)
Definition binary64_spec : Arithmetic spec_float :=
  mkArithmetic (fun z => binary_normalize 53 1024 z 0 false)
    (SFdiv 53 1024) (SFmul 53 1024) (SFadd 53 1024) (SFsub 53 1024)
    (fun a b => if SFleb a b then a else b).

(** The rational a finite [spec_float] denotes. *)
Definition Q_of_spec (f : spec_float) : Q :=
  match f with
  | S754_finite s m e =>
      Qred (inject_Z (if s then Zneg m else Zpos m) * Double.pow2 e)
  | _ => 0%Q
  end.

(** What [drawImage] receives at line 197. *)
Record Placement (T : Type) := mkPlacement {
  ratio : T;
  newWidth : T;
  newHeight : T;
  drawX : T;
  drawY : T
}.

Definition map_Placement {T U} (f : T -> U) (p : Placement T) : Placement U :=
  mkPlacement (f (ratio p)) (f (newWidth p)) (f (newHeight p))
    (f (drawX p)) (f (drawY p)).

Section Geometry.

Variable T : Type.
Variable A : Arithmetic T.

(** Lines 187-195, for the canvas [html2canvas] produced. *)
Definition drawImage_placement (canvas : Canvas) : Placement T :=
  let a4Width := number A (Z.of_N a4Width) in
  let a4Height := number A (Z.of_N a4Height) in
  let canvas_width := number A (Z.of_N (width canvas)) in
  let canvas_height := number A (Z.of_N (height canvas)) in
  let contentMargin := number A 50 in
  let contentStartY := number A 160 in
  let availableWidth := a_sub A a4Width (a_mul A contentMargin (number A 2)) in
  let availableHeight := a_sub A (a_sub A a4Height contentStartY) contentMargin in
  let ratio := a_min A (a_div A availableWidth canvas_width)
                 (a_div A availableHeight canvas_height) in
  let newWidth := a_mul A canvas_width ratio in
  let newHeight := a_mul A canvas_height ratio in
  let x := a_div A (a_sub A a4Width newWidth) (number A 2) in
  let y := a_add A contentStartY
             (a_div A (a_sub A availableHeight newHeight) (number A 2)) in
  mkPlacement ratio newWidth newHeight x y.

End Geometry.

(** The rounding allowance of the placement: [2^-41] of a pixel. *)
Definition rounding_allowance : Q := Double.pow2 (-41).

(** The margined region of the page, as the specification has it: the
    drawn rectangle lies inside it, with equal space left and right and
    equal space above and below. *)
Definition fits_exactly (p : Placement Q) : Prop :=
  (50 <= drawX p /\ drawX p + newWidth p <= 1190
   /\ 160 <= drawY p /\ drawY p + newHeight p <= 1704
   /\ drawX p - 50 == 1190 - (drawX p + newWidth p)
   /\ drawY p - 160 == 1704 - (drawY p + newHeight p))%Q.

(** * Properties *)

(** ** Sanity checks of the embedding on concrete inputs *)

Example js_hangul : js "고" = [44256%N].
Proof. reflexivity. Qed.

Example validate_initial_keys :
  Obj.keys (errors (fst (validateForm initialState))) = validation_order.
Proof. reflexivity. Qed.

Example grade_high1 :
  calculateGrade (fun _ => mkDate (Int 2010) (Int 4) (Int 20))
    (mkDate (Int 2026) (Int 10) (Int 2)) (js "2010-05-20") = js "고1".
Proof. reflexivity. Qed.

Example grade_invalid_date :
  calculateGrade (fun _ => mkDate NaN NaN NaN)
    (mkDate (Int 2026) (Int 10) (Int 2)) (js "x") = [].
Proof. reflexivity. Qed.

Example toString_digits :
  toString (Int 12) = js "12" /\ toString (Int 0) = js "0"
  /\ toString (Int (-3)) = js "-3".
Proof. repeat split. Qed.

Example regex_accepts : regex_test (js "Kim Min-su") = true.
Proof. reflexivity. Qed.

Example regex_rejects_digit : regex_test (js "Kim2") = false.
Proof. reflexivity. Qed.

(** ** The [errors] object *)

Lemma Obj_set_fresh (k : ErrKey) (v : option jsstring) (o : Obj.t) :
  ~ In k (Obj.keys o) -> Obj.set k v o = o ++ [(k, v)].
Proof.
  induction o as [|[k' v'] r IH]; intros Hk; [reflexivity|].
  cbn [Obj.set]. destruct (ErrKey_eq_dec k' k) as [->|Hne].
  - exfalso. apply Hk. now left.
  - cbn [app]. rewrite IH; [reflexivity|].
    intros Hin. apply Hk. now right.
Qed.

Lemma Obj_get_set_same (k : ErrKey) (v : option jsstring) (o : Obj.t) :
  Obj.get k (Obj.set k v o) = v.
Proof.
  induction o as [|[k' v'] r IH].
  - cbn. now destruct (ErrKey_eq_dec k k).
  - cbn [Obj.set]. destruct (ErrKey_eq_dec k' k) as [->|Hne].
    + cbn [Obj.get]. now destruct (ErrKey_eq_dec k k).
    + cbn [Obj.get]. now destruct (ErrKey_eq_dec k' k).
Qed.

Lemma Obj_get_set_other (k k0 : ErrKey) (v : option jsstring) (o : Obj.t) :
  k0 <> k -> Obj.get k0 (Obj.set k v o) = Obj.get k0 o.
Proof.
  intros Hne. induction o as [|[k' v'] r IH].
  - cbn. destruct (ErrKey_eq_dec k k0); [congruence|reflexivity].
  - cbn [Obj.set]. destruct (ErrKey_eq_dec k' k) as [->|Hk].
    + cbn [Obj.get]. destruct (ErrKey_eq_dec k k0); [congruence|reflexivity].
    + cbn [Obj.get]. destruct (ErrKey_eq_dec k' k0); [reflexivity|exact IH].
Qed.

Lemma Obj_get_absent (k : ErrKey) (o : Obj.t) :
  ~ In k (Obj.keys o) -> Obj.get k o = None.
Proof.
  induction o as [|[k' v'] r IH]; intros Hk; [reflexivity|].
  cbn [Obj.get]. destruct (ErrKey_eq_dec k' k) as [->|Hne].
  - exfalso. apply Hk. now left.
  - apply IH. intros Hin. apply Hk. now right.
Qed.

(** ** What [validateForm] records *)

Lemma validation_order_complete (k : ErrKey) : In k validation_order.
Proof. destruct k as [|f]; [|destruct f]; cbn; tauto. Qed.

Lemma validation_order_NoDup : NoDup validation_order.
Proof.
  change validation_order with (nodup ErrKey_eq_dec validation_order).
  apply NoDup_nodup.
Qed.

Section Recording.

Variable s : AppState.

Lemma newErrors_of_fold :
  newErrors_of (formData s) (profileImage s)
  = fold_left (record_missing s) validation_order Obj.empty.
Proof.
  unfold newErrors_of, validation_order, FormData_keys.
  cbn [map fold_left]. unfold record_missing.
  cbn [missing message get_field]. reflexivity.
Qed.

Lemma fold_record_missing (ks : list ErrKey) :
  forall acc : Obj.t,
    NoDup ks ->
    (forall k, In k ks -> ~ In k (Obj.keys acc)) ->
    fold_left (record_missing s) ks acc = acc ++ map entry (filter (missing s) ks).
Proof.
  induction ks as [|k ks IH]; intros acc Hnd Hfresh.
  - cbn. now rewrite app_nil_r.
  - inversion Hnd as [|? ? Hnotin Hnd']; subst.
    cbn [fold_left filter]. unfold record_missing at 2. unfold assign_if.
    destruct (missing s k) eqn:Hm.
    + rewrite Obj_set_fresh by (apply Hfresh; now left).
      rewrite IH; [now rewrite <- app_assoc| exact Hnd' |].
      intros k' Hin Hacc. unfold Obj.keys in Hacc.
      rewrite map_app in Hacc. apply in_app_or in Hacc.
      destruct Hacc as [Hacc|[E|[]]].
      * apply (Hfresh k'); [now right | exact Hacc].
      * cbn in E. subst k'. contradiction.
    + apply IH; [exact Hnd'|]. intros k' Hin. apply Hfresh. now right.
Qed.

Lemma newErrors_of_filter :
  newErrors_of (formData s) (profileImage s)
  = map entry (filter (missing s) validation_order).
Proof.
  rewrite newErrors_of_fold.
  rewrite fold_record_missing; [reflexivity | apply validation_order_NoDup |].
  intros k _ [].
Qed.

Lemma newErrors_keys :
  Obj.keys (newErrors_of (formData s) (profileImage s))
  = filter (missing s) validation_order.
Proof.
  rewrite newErrors_of_filter. unfold Obj.keys. rewrite map_map.
  cbn [entry fst]. apply map_id.
Qed.

Lemma validateForm_result :
  snd (validateForm s) = true <-> forall k, missing s k = false.
Proof.
  unfold validateForm. cbn [snd]. rewrite newErrors_keys. split.
  - intros H k. apply Nat.eqb_eq, length_zero_iff_nil in H.
    destruct (missing s k) eqn:Hm; [|reflexivity].
    assert (Hin : In k (filter (missing s) validation_order))
      by (apply filter_In; split; [apply validation_order_complete|exact Hm]).
    rewrite H in Hin. contradiction.
  - intros H. apply Nat.eqb_eq, length_zero_iff_nil.
    destruct (filter (missing s) validation_order) as [|k l] eqn:E; [reflexivity|].
    assert (Hin : In k (filter (missing s) validation_order)) by (rewrite E; now left).
    apply filter_In in Hin. destruct Hin as [_ Hm]. rewrite H in Hm. discriminate.
Qed.

End Recording.

Lemma filter_single {A} (f : A -> bool) (l : list A) (k : A) :
  NoDup l -> In k l -> f k = true ->
  (forall k', k' <> k -> f k' = false) -> filter f l = [k].
Proof.
  induction l as [|a l IH]; intros Hnd Hin Hk Hothers; [contradiction|].
  inversion Hnd as [|? ? Hnotin Hnd']; subst. cbn [filter].
  destruct Hin as [->|Hin].
  - rewrite Hk. f_equal.
    clear IH Hnd. induction l as [|b l IHl]; [reflexivity|].
    cbn [filter]. rewrite Hothers.
    + apply IHl; [intros H; apply Hnotin; now right | now inversion Hnd'].
    + intros ->. apply Hnotin. now left.
  - rewrite Hothers; [now apply IH|].
    intros ->. contradiction.
Qed.

(** ** C1: presence validation *)

(** C1, as stated, fails on the counts: the claim speaks of 15 required
    values, 14 of them fields of [FormData].  [FormData] has 13 fields, and
    on the empty record without attachment, where every required value is
    missing, [validateForm] records 14 entries. *)
Lemma validateForm_not_fifteen_values :
  List.length FormData_keys <> 14%nat
  /\ snd (validateForm initialState) = false
  /\ List.length (Obj.keys (errors (fst (validateForm initialState)))) <> 15%nat.
Proof.
  split; [discriminate|]. split; [vm_compute; reflexivity|].
  vm_compute. discriminate.
Qed.

(** C1 (amended): the required values are 14, the 13 fields of [FormData]
    and the profile image.  [validateForm] returns [true], and leaves an
    empty error set, exactly when none of them is missing; when exactly one
    is missing it returns [false] and the error set is the single entry of
    that key with its fixed message. *)
Theorem validateForm_required_values (s : AppState) :
  (List.length FormData_keys = 13%nat
   /\ List.length validation_order = 14%nat
   /\ NoDup validation_order
   /\ forall k, In k validation_order)
  /\ (snd (validateForm s) = true <-> forall k, missing s k = false)
  /\ (errors (fst (validateForm s)) = Obj.empty <-> snd (validateForm s) = true)
  /\ (forall k,
        missing s k = true ->
        (forall k', k' <> k -> missing s k' = false) ->
        snd (validateForm s) = false
        /\ errors (fst (validateForm s)) = [(k, Some (message k))]).
Proof.
  split; [|split; [|split]].
  - repeat split; [apply validation_order_NoDup | apply validation_order_complete].
  - apply validateForm_result.
  - unfold validateForm. cbn [fst snd errors setErrors].
    unfold Obj.keys. rewrite length_map.
    destruct (newErrors_of (formData s) (profileImage s)); cbn; split;
      intros H; (reflexivity || discriminate H).
  - intros k Hk Hothers.
    assert (E : filter (missing s) validation_order = [k]).
    { apply filter_single;
        [apply validation_order_NoDup | apply validation_order_complete
        | exact Hk | exact Hothers]. }
    unfold validateForm. cbn [fst snd errors setErrors].
    rewrite newErrors_keys, newErrors_of_filter, E. split; reflexivity.
Qed.

(** C1 at a concrete record: everything present but the e-mail address. *)
Lemma validateForm_required_values_witness :
  snd (validateForm noEmailState) = false
  /\ errors (fst (validateForm noEmailState))
     = [(Kfield Kemail, Some (message (Kfield Kemail)))].
Proof.
  apply (proj2 (proj2 (proj2 (validateForm_required_values noEmailState)))
           (Kfield Kemail)).
  - vm_compute. reflexivity.
  - intros k' Hne. destruct k' as [|f]; [vm_compute; reflexivity|].
    destruct f; try (vm_compute; reflexivity). now contradiction Hne.
Defined.

(** ** C2: the grade derived from the birth date *)

Lemma birthday_not_reached (cm cd bm bd : Z) :
  lt (sub (Int cm) (Int bm)) (Int 0)
  || (seq (sub (Int cm) (Int bm)) (Int 0) && lt (Int cd) (Int bd)) = true
  <-> precedes cm cd bm bd.
Proof.
  unfold precedes. cbn [sub lt seq].
  rewrite orb_true_iff, andb_true_iff, !Z.ltb_lt, Z.eqb_eq. lia.
Qed.

Lemma calculateGrade_of_age (newDate : jsstring -> JSDate) (today : JSDate)
    (birthDate : jsstring) (birthY birthM birthD nowY nowM nowD age : Z) :
  birthDate <> [] ->
  newDate birthDate = mkDate (Int birthY) (Int birthM) (Int birthD) ->
  today = mkDate (Int nowY) (Int nowM) (Int nowD) ->
  (precedes nowM nowD birthM birthD /\ age = nowY - birthY - 1
   \/ ~ precedes nowM nowD birthM birthD /\ age = nowY - birthY)%Z ->
  calculateGrade newDate today birthDate =
    let koreanAge := Int (age + 1) in
    if ge koreanAge (Int 17) then label_high ++ toString (sub koreanAge (Int 16))
    else if ge koreanAge (Int 14) then label_middle ++ toString (sub koreanAge (Int 13))
    else if ge koreanAge (Int 8) then label_elementary ++ toString (sub koreanAge (Int 7))
    else if ge koreanAge (Int 1) then label_preschool
    else [].
Proof.
  intros Hne Hbirth -> Hage. unfold calculateGrade.
  destruct birthDate as [|c r]; [contradiction|]. cbn [falsy].
  rewrite Hbirth. cbn [getFullYear getMonth getDate].
  destruct (lt (sub (Int nowM) (Int birthM)) (Int 0)
            || (seq (sub (Int nowM) (Int birthM)) (Int 0)
                && lt (Int nowD) (Int birthD))) eqn:Hdec.
  - apply birthday_not_reached in Hdec.
    destruct Hage as [[_ ->]|[Hn _]]; [|contradiction]. reflexivity.
  - assert (Hn : ~ precedes nowM nowD birthM birthD).
    { intros Hp. apply birthday_not_reached in Hp. congruence. }
    destruct Hage as [[Hp _]|[_ ->]]; [contradiction|]. reflexivity.
Qed.

(** C2: the empty birth date gives the empty grade.  Otherwise, with
    [age] the difference of the years, less one when the current
    month/day precedes the birth month/day, and [koreanAge = age + 1], the
    grade is the high-school label with [koreanAge - 16] from 17 up, the
    middle-school label with [koreanAge - 13] from 14, the elementary label
    with [koreanAge - 7] from 8, the preschool label from 1, and empty
    below.  A birth date the runtime cannot read gives the empty grade. *)
Theorem calculateGrade_buckets (newDate : jsstring -> JSDate) (today : JSDate)
    (birthDate : jsstring) :
  calculateGrade newDate today [] = []
  /\ (newDate birthDate = mkDate NaN NaN NaN ->
      calculateGrade newDate today birthDate = [])
  /\ forall birthY birthM birthD nowY nowM nowD age koreanAge : Z,
       birthDate <> [] ->
       newDate birthDate = mkDate (Int birthY) (Int birthM) (Int birthD) ->
       today = mkDate (Int nowY) (Int nowM) (Int nowD) ->
       (precedes nowM nowD birthM birthD /\ age = nowY - birthY - 1
        \/ ~ precedes nowM nowD birthM birthD /\ age = nowY - birthY)%Z ->
       koreanAge = (age + 1)%Z ->
       ((17 <= koreanAge)%Z ->
        calculateGrade newDate today birthDate
        = label_high ++ toString (Int (koreanAge - 16)))
       /\ ((14 <= koreanAge < 17)%Z ->
           calculateGrade newDate today birthDate
           = label_middle ++ toString (Int (koreanAge - 13)))
       /\ ((8 <= koreanAge < 14)%Z ->
           calculateGrade newDate today birthDate
           = label_elementary ++ toString (Int (koreanAge - 7)))
       /\ ((1 <= koreanAge < 8)%Z ->
           calculateGrade newDate today birthDate = label_preschool)
       /\ ((koreanAge < 1)%Z ->
           calculateGrade newDate today birthDate = []).
Proof.
  split; [reflexivity|]. split.
  - intros Hbirth. unfold calculateGrade.
    destruct (falsy birthDate); [reflexivity|].
    rewrite Hbirth. cbn [getFullYear getMonth getDate].
    now destruct (getFullYear today), (getMonth today), (getDate today).
  - intros birthY birthM birthD nowY nowM nowD age koreanAge
      Hne Hbirth Htoday Hage ->.
    rewrite (calculateGrade_of_age _ Hne Hbirth Htoday Hage).
    cbn zeta. cbn [ge sub].
    repeat split; intros Hk;
      repeat match goal with
        | |- context [(?a <=? ?b)%Z] => destruct (Z.leb_spec a b); try lia
        end; reflexivity.
Qed.

(** C2 at a concrete date: born 20 May 2010, read on 2 November 2026. *)
Lemma calculateGrade_buckets_witness :
  calculateGrade sampleNewDate sampleToday sampleBirthDate
  = label_high ++ toString (Int (17 - 16)).
Proof.
  refine (proj1 (proj2 (proj2 (calculateGrade_buckets sampleNewDate sampleToday
            sampleBirthDate)) 2010 4 20 2026 10 2 16 17 _ _ _ _ _)%Z _).
  - vm_compute. discriminate.
  - reflexivity.
  - reflexivity.
  - right. unfold precedes. lia.
  - reflexivity.
  - lia.
Defined.

(** ** C3 and C4: the field handlers *)

Lemma get_set_field_same (name : Field) (value : jsstring) (d : FormData) :
  get_field name (set_field name value d) = value.
Proof. destruct d, name; reflexivity. Qed.

Lemma get_set_field_other (name f : Field) (value : jsstring) (d : FormData) :
  f <> name -> get_field f (set_field name value d) = get_field f d.
Proof. intros Hne. destruct d, name, f; try reflexivity; contradiction. Qed.

Lemma has_error_cleared (k : ErrKey) (o : Obj.t) :
  has_error k (Obj.set k None o) = false.
Proof. unfold has_error. now rewrite Obj_get_set_same. Qed.

Lemma english_name_char_iff (c : N) :
  english_name_char c = true <-> latin_name_char c.
Proof.
  unfold english_name_char, latin_name_char.
  rewrite !orb_true_iff, !andb_true_iff, !N.leb_le, N.eqb_eq. tauto.
Qed.

Lemma regex_test_iff (value : jsstring) :
  regex_test value = true <-> matches_latin_class value.
Proof.
  unfold regex_test, matches_latin_class.
  rewrite forallb_forall, Forall_forall.
  split; intros H c Hc; apply english_name_char_iff, H, Hc.
Qed.

(** C3: an input in the class {A-Z, a-z, whitespace, hyphen} is stored as
    [nameEnglish], clears the warning and leaves no error for
    [nameEnglish]; any other input leaves the record and the error set as
    they were and sets the warning. *)
Theorem handleEnglishNameChange_accepts_class (value : jsstring) (s : AppState) :
  (matches_latin_class value ->
   nameEnglish (formData (handleEnglishNameChange value s)) = value
   /\ englishNameWarning (handleEnglishNameChange value s) = []
   /\ has_error (Kfield KnameEnglish) (errors (handleEnglishNameChange value s)) = false
   /\ (forall f, f <> KnameEnglish ->
         get_field f (formData (handleEnglishNameChange value s))
         = get_field f (formData s))
   /\ (forall k, k <> Kfield KnameEnglish ->
         Obj.get k (errors (handleEnglishNameChange value s))
         = Obj.get k (errors s)))
  /\ (~ matches_latin_class value ->
      formData (handleEnglishNameChange value s) = formData s
      /\ errors (handleEnglishNameChange value s) = errors s
      /\ englishNameWarning (handleEnglishNameChange value s) = msg_englishNameWarning
      /\ falsy msg_englishNameWarning = false).
Proof.
  unfold handleEnglishNameChange. split.
  - intros Hm. apply regex_test_iff in Hm. rewrite Hm.
    destruct (has_error (Kfield KnameEnglish) (errors s)) eqn:He;
      cbn [formData errors englishNameWarning setErrors setEnglishNameWarning
           setFormData].
    + repeat split.
      * apply (get_set_field_same KnameEnglish).
      * apply has_error_cleared.
      * intros f Hf. now apply get_set_field_other.
      * intros k Hk. now apply Obj_get_set_other.
    + repeat split.
      * apply (get_set_field_same KnameEnglish).
      * exact He.
      * intros f Hf. now apply get_set_field_other.
  - intros Hm. destruct (regex_test value) eqn:Ht.
    + exfalso. apply Hm, regex_test_iff, Ht.
    + repeat split.
Qed.

(** C3 at concrete inputs: a name with a digit is refused, a hyphenated
    name is stored. *)
Lemma handleEnglishNameChange_accepts_class_witness :
  (nameEnglish (formData (handleEnglishNameChange (js "Lee Ha-eun") rejectedState))
   = js "Lee Ha-eun"
   /\ englishNameWarning (handleEnglishNameChange (js "Lee Ha-eun") rejectedState) = [])
  /\ (formData (handleEnglishNameChange (js "Lee2") rejectedState)
      = formData rejectedState
      /\ englishNameWarning (handleEnglishNameChange (js "Lee2") rejectedState)
         = msg_englishNameWarning).
Proof.
  split.
  - assert (Hm : matches_latin_class (js "Lee Ha-eun"))
      by (apply regex_test_iff; vm_compute; reflexivity).
    destruct (proj1 (handleEnglishNameChange_accepts_class (js "Lee Ha-eun")
                       rejectedState) Hm) as (H1 & H2 & _).
    split; assumption.
  - assert (Hm : ~ matches_latin_class (js "Lee2")).
    { intros H. apply regex_test_iff in H. vm_compute in H. discriminate H. }
    destruct (proj2 (handleEnglishNameChange_accepts_class (js "Lee2")
                       rejectedState) Hm) as (H1 & _ & H3 & _).
    split; assumption.
Defined.

(** C4: [handleChange] stores the raw value under the named field, leaves
    no error for that field, and leaves every other field, every other
    error entry and every other cell as they were, whatever the value.
    (The key of a cleared error stays in the object, holding
    [undefined].) *)
Theorem handleChange_frame (name : Field) (value : jsstring) (s : AppState) :
  get_field name (formData (handleChange name value s)) = value
  /\ (forall f, f <> name ->
        get_field f (formData (handleChange name value s))
        = get_field f (formData s))
  /\ has_error (Kfield name) (errors (handleChange name value s)) = false
  /\ (forall k, k <> Kfield name ->
        Obj.get k (errors (handleChange name value s)) = Obj.get k (errors s))
  /\ profileImage (handleChange name value s) = profileImage s
  /\ englishNameWarning (handleChange name value s) = englishNameWarning s
  /\ same_gate s (handleChange name value s).
Proof.
  unfold handleChange.
  cbn [errors setFormData].
  destruct (has_error (Kfield name) (errors s)) eqn:He;
    cbn [formData errors englishNameWarning profileImage setErrors setFormData];
    unfold same_gate; cbn.
  - repeat split.
    + apply get_set_field_same.
    + intros f Hf. now apply get_set_field_other.
    + apply has_error_cleared.
    + intros k Hk. now apply Obj_get_set_other.
  - repeat split.
    + apply get_set_field_same.
    + intros f Hf. now apply get_set_field_other.
    + exact He.
Qed.

(** C4 at a concrete input: after a rejected attempt, emptying the e-mail
    field again still clears its error and keeps the error of the
    address. *)
Lemma handleChange_frame_witness :
  has_error (Kfield Kemail) (errors rejectedState) = true
  /\ email (formData (handleChange Kemail [] rejectedState)) = []
  /\ has_error (Kfield Kemail) (errors (handleChange Kemail [] rejectedState)) = false
  /\ Obj.get (Kfield Kaddress) (errors (handleChange Kemail [] rejectedState))
     = Obj.get (Kfield Kaddress) (errors rejectedState).
Proof.
  split; [vm_compute; reflexivity|].
  destruct (handleChange_frame Kemail [] rejectedState) as (H1 & _ & H3 & H4 & _).
  split; [exact H1|]. split; [exact H3|]. apply H4. discriminate.
Defined.

(** ** Logs *)

Lemma skipn_length_app {A} (l r : list A) : skipn (List.length l) (l ++ r) = r.
Proof. induction l as [|a l IH]; [reflexivity|exact IH]. Qed.

Lemma new_effects_none (w : World) : new_effects w w = [].
Proof.
  unfold new_effects. rewrite <- (app_nil_r (log w)) at 2.
  apply skipn_length_app.
Qed.

Lemma new_effects_app (w : World) (doc : Document) (l : list Effect) :
  new_effects w (mkWorld doc (log w ++ l)) = l.
Proof. apply skipn_length_app. Qed.

(** ** C5: the pledge track *)

Lemma step_pledgeChecked (b : Browser) (e : Event) (s : AppState) :
  e <> PledgeConfirm ->
  pledgeChecked (fst (step b e s)) = pledgeChecked s && negb (
    match e with PledgeCheckbox false => true | _ => false end).
Proof.
  intros He. destruct e as [name value|value|ce result|c|c| | |];
    cbn [step fst]; try contradiction.
  - unfold handleChange. cbn [errors setFormData].
    destruct (has_error _ _); cbn; now rewrite andb_true_r.
  - unfold handleEnglishNameChange.
    destruct (regex_test value); [destruct (has_error _ _)|]; cbn;
      now rewrite andb_true_r.
  - unfold handleImageUpload_onload. destruct (has_error _ _); cbn;
      now rewrite andb_true_r.
  - unfold benefitsCheckbox_onChange. destruct c; cbn; now rewrite andb_true_r.
  - destruct c; cbn; [now rewrite andb_true_r | now rewrite andb_false_r].
  - cbn. now rewrite andb_true_r.
  - unfold handleSubmit, validateForm. cbn. now rewrite andb_true_r.
Qed.

Lemma step_accepts_only_confirm (b : Browser) (e : Event) (s : AppState) :
  pledgeChecked s = false -> pledgeChecked (fst (step b e s)) = true ->
  e = PledgeConfirm.
Proof.
  intros Hs He.
  destruct (match e with PledgeConfirm => true | _ => false end) eqn:Hc.
  - destruct e; (reflexivity || discriminate Hc).
  - rewrite step_pledgeChecked in He by (intros ->; discriminate Hc).
    rewrite Hs in He. discriminate He.
Qed.

Lemma run_pledgeChecked (b : Browser) (trace : list Event) :
  forall s, pledgeChecked s = false -> pledgeChecked (run b trace s) = true ->
            In PledgeConfirm trace.
Proof.
  induction trace as [|e rest IH]; intros s Hs Hrun; cbn [run] in Hrun.
  - congruence.
  - destruct (pledgeChecked (fst (step b e s))) eqn:Hstep.
    + left. exact (step_accepts_only_confirm b e s Hs Hstep).
    + right. exact (IH _ Hstep Hrun).
Qed.

(** C5: the pledge is accepted only by the confirm button of the pledge
    modal.  From a state where it is not accepted, an event that leaves it
    accepted is the confirmation, and any sequence of events that ends with
    it accepted contains a confirmation; checking the box leaves it
    unaccepted and opens the modal; confirming accepts it and closes the
    modal; unchecking an accepted pledge revokes it at once, without
    opening the modal. *)
Theorem pledge_accepted_only_by_confirm (b : Browser) (s : AppState) :
  (forall e, pledgeChecked s = false ->
             pledgeChecked (fst (step b e s)) = true -> e = PledgeConfirm)
  /\ (forall trace, pledgeChecked s = false ->
                    pledgeChecked (run b trace s) = true -> In PledgeConfirm trace)
  /\ (pledgeChecked s = false ->
      pledgeChecked (fst (step b (PledgeCheckbox true) s)) = false
      /\ isPledgeModalOpen (fst (step b (PledgeCheckbox true) s)) = true)
  /\ (pledgeChecked (fst (step b PledgeConfirm s)) = true
      /\ isPledgeModalOpen (fst (step b PledgeConfirm s)) = false)
  /\ (pledgeChecked s = true ->
      pledgeChecked (fst (step b (PledgeCheckbox false) s)) = false
      /\ isPledgeModalOpen (fst (step b (PledgeCheckbox false) s))
         = isPledgeModalOpen s).
Proof.
  repeat split.
  - intros e. apply step_accepts_only_confirm.
  - intros trace. apply run_pledgeChecked.
  - cbn. assumption.
Qed.

(** C5 on the initial state: the box is checked, then the modal confirmed,
    then the box unchecked. *)
Lemma pledge_accepted_only_by_confirm_witness :
  pledgeChecked (fst (step sampleBrowser (PledgeCheckbox true) initialState)) = false
  /\ isPledgeModalOpen (fst (step sampleBrowser (PledgeCheckbox true) initialState)) = true.
Proof.
  apply (proj1 (proj2 (proj2 (pledge_accepted_only_by_confirm sampleBrowser initialState)))).
  reflexivity.
Defined.

(** ** C10: the disabled submit button *)

(** C10: the submit button is disabled exactly when the pledge is not
    accepted; then the interface cannot deliver the click, and no event it
    can deliver raises the pledge alert. *)
Theorem submit_unavailable_without_pledge (b : Browser) (s : AppState) :
  (submitButton_disabled s = true <-> pledgeChecked s = false)
  /\ (pledgeChecked s = false -> available s SubmitClick = false)
  /\ (forall e w,
        pledgeChecked s = false -> available s e = true ->
        e <> SubmitClick
        /\ ~ In (Alert msg_pledgeRequired)
               (new_effects w (snd (snd (step b e s) w)))).
Proof.
  unfold submitButton_disabled. repeat split.
  - intros H. now apply negb_true_iff in H.
  - intros H. now apply negb_true_iff.
  - intros H. cbn. unfold submitButton_disabled. now rewrite H.
  - intros ->. cbn in H0. unfold submitButton_disabled in H0.
    rewrite H in H0. discriminate H0.
  - destruct e; cbn [step snd ret];
      try (rewrite new_effects_none; intros []).
    cbn in H0. unfold submitButton_disabled in H0.
    rewrite H in H0. discriminate H0.
Qed.

(** C10 on the initial state, where only the box has been checked. *)
Lemma submit_unavailable_without_pledge_witness :
  available (fst (step sampleBrowser (PledgeCheckbox true) initialState)) SubmitClick = false.
Proof.
  apply (proj1 (proj2 (submit_unavailable_without_pledge sampleBrowser
                         (fst (step sampleBrowser (PledgeCheckbox true) initialState))))).
  reflexivity.
Defined.


(** ** The three branches of [handleSubmit] *)

Lemma handleSubmit_state (b : Browser) (s : AppState) :
  fst (handleSubmit b s) = fst (validateForm s).
Proof. reflexivity. Qed.

Lemma handleSubmit_invalid (b : Browser) (s : AppState) (w : World) :
  snd (validateForm s) = false ->
  snd (handleSubmit b s) w =
    match getElementById (key_id (hd_error (Obj.keys (errors s)))) (document w) with
    | Some el =>
        (Normal tt,
         mkWorld (document w)
           (log w ++ [Focus (el_id el); ScrollIntoView (el_id el)]))
    | None => (Normal tt, w)
    end.
Proof.
  intros Hv. unfold handleSubmit, validateForm in *. cbn [snd] in *.
  rewrite Hv. cbn [negb]. unfold bind, read_document.
  destruct (getElementById _ (document w)) as [el|]; [|reflexivity].
  unfold emit, bind. cbn [document log]. now rewrite <- app_assoc.
Qed.

Lemma handleSubmit_unaccepted (b : Browser) (s : AppState) (w : World) :
  snd (validateForm s) = true -> pledgeChecked s = false ->
  snd (handleSubmit b s) w =
    (Normal tt, mkWorld (document w) (log w ++ [Alert msg_pledgeRequired])).
Proof.
  intros Hv Hp. unfold handleSubmit, validateForm in *. cbn [snd] in *.
  rewrite Hv, Hp. reflexivity.
Qed.

Lemma handleSubmit_composes (b : Browser) (s : AppState) :
  snd (validateForm s) = true -> pledgeChecked s = true ->
  snd (handleSubmit b s) = compose b (formData s).
Proof.
  intros Hv Hp. unfold handleSubmit, validateForm in *. cbn [snd] in *.
  rewrite Hv, Hp. reflexivity.
Qed.

(** ** C6: the submission gate *)

(** C6: with every required value present and the pledge not accepted,
    [handleSubmit] raises the alert and does nothing else: the page is as
    before and no step of the composition runs.  A run that performs a
    step of the composition, or changes the page, had validation pass and
    the pledge accepted. *)
Theorem submit_blocked_without_pledge (b : Browser) (s : AppState) (w : World) :
  (snd (validateForm s) = true -> pledgeChecked s = false ->
   snd (handleSubmit b s) w
   = (Normal tt, mkWorld (document w) (log w ++ [Alert msg_pledgeRequired]))
   /\ existsb is_composition_effect
        (new_effects w (snd (snd (handleSubmit b s) w))) = false)
  /\ (existsb is_composition_effect
        (new_effects w (snd (snd (handleSubmit b s) w))) = true
      \/ document (snd (snd (handleSubmit b s) w)) <> document w ->
      snd (validateForm s) = true /\ pledgeChecked s = true).
Proof.
  split.
  - intros Hv Hp. rewrite (handleSubmit_unaccepted b s w Hv Hp).
    split; [reflexivity|]. cbn [snd]. now rewrite new_effects_app.
  - intros H. destruct (snd (validateForm s)) eqn:Hv.
    + destruct (pledgeChecked s) eqn:Hp; [now split|].
      rewrite (handleSubmit_unaccepted b s w Hv Hp) in H. cbn [snd document] in H.
      rewrite new_effects_app in H. cbn in H.
      destruct H as [H|H]; [discriminate H | now contradiction H].
    + rewrite (handleSubmit_invalid b s w Hv) in H.
      destruct (getElementById _ (document w)) as [el|]; cbn [snd document] in H.
      * rewrite new_effects_app in H. cbn in H.
        destruct H as [H|H]; [discriminate H | now contradiction H].
      * rewrite new_effects_none in H. cbn in H.
        destruct H as [H|H]; [discriminate H | now contradiction H].
Qed.

(** C6 at a concrete state: the filled form with the pledge revoked. *)
Lemma submit_blocked_without_pledge_witness :
  snd (handleSubmit sampleBrowser (setPledgeChecked false filledState)) renderedWorld
  = (Normal tt, mkWorld renderedDocument [Alert msg_pledgeRequired])
  /\ existsb is_composition_effect
       (new_effects renderedWorld
          (snd (snd (handleSubmit sampleBrowser (setPledgeChecked false filledState))
                  renderedWorld))) = false.
Proof.
  apply (proj1 (submit_blocked_without_pledge sampleBrowser
                  (setPledgeChecked false filledState) renderedWorld)).
  - vm_compute. reflexivity.
  - reflexivity.
Defined.

(** ** C7: focus after a rejected attempt *)

Lemma hd_error_filter {A} (f : A -> bool) (l : list A) :
  hd_error (filter f l) = find f l.
Proof.
  induction l as [|a l IH]; [reflexivity|].
  cbn [filter find]. now destruct (f a).
Qed.

(** Of the fourteen keys, three have no element with their id on the page:
    the profile image, the membership category and the gender. *)
Lemma keys_without_element (k : ErrKey) :
  getElementById (key_name k) renderedDocument = None
  <-> k = KprofileImage \/ k = Kfield KmembershipType \/ k = Kfield Kgender.
Proof.
  split.
  - destruct k as [|f]; [now left|].
    destruct f; cbn; intros H; try discriminate H; tauto.
  - intros [->|[->| ->]]; reflexivity.
Qed.

(** C7, as stated, fails: on a second attempt on the empty form the error
    set is the one validation computes, its first key is the profile image,
    no element has that id, and nothing is focused; by the canonical order
    the affiliation field would be. *)
Lemma handleSubmit_focus_not_canonical :
  snd (validateForm rejectedState) = false
  /\ errors rejectedState
     = newErrors_of (formData rejectedState) (profileImage rejectedState)
  /\ snd (handleSubmit sampleBrowser rejectedState) renderedWorld
     = (Normal tt, renderedWorld)
  /\ canonical_focus rejectedState renderedDocument
     = [Focus (Some "affiliation"%string); ScrollIntoView (Some "affiliation"%string)]
  /\ new_effects renderedWorld
       (snd (snd (handleSubmit sampleBrowser rejectedState) renderedWorld))
     <> canonical_focus rejectedState renderedDocument.
Proof.
  repeat split; try (vm_compute; reflexivity).
  vm_compute. discriminate.
Qed.

(** On the first attempt the handler still holds the empty error set of
    the render that created it: nothing is focused, whatever is missing. *)
Lemma handleSubmit_first_attempt_no_focus (b : Browser) (s : AppState) :
  snd (validateForm s) = false -> errors s = Obj.empty ->
  snd (handleSubmit b s) renderedWorld = (Normal tt, renderedWorld).
Proof.
  intros Hv He. rewrite (handleSubmit_invalid b s renderedWorld Hv), He.
  reflexivity.
Qed.

(** C7 (amended): on a rejected attempt whose error set is the one
    validation computes for the record, the element that is focused and
    scrolled into view is the one whose id is the first missing value in
    the order in which [validateForm] records them (profile image first,
    then the thirteen fields); when no element has that id, nothing
    happens. *)
Theorem handleSubmit_focus_recorded_order (b : Browser) (s : AppState) (w : World) :
  snd (validateForm s) = false ->
  errors s = newErrors_of (formData s) (profileImage s) ->
  exists k,
    find (missing s) validation_order = Some k
    /\ snd (handleSubmit b s) w =
         match getElementById (key_name k) (document w) with
         | Some el =>
             (Normal tt,
              mkWorld (document w)
                (log w ++ [Focus (el_id el); ScrollIntoView (el_id el)]))
         | None => (Normal tt, w)
         end.
Proof.
  intros Hv He.
  rewrite (handleSubmit_invalid b s w Hv), He, newErrors_keys, hd_error_filter.
  destruct (find (missing s) validation_order) as [k|] eqn:Hf.
  - exists k. split; reflexivity.
  - exfalso.
    assert (Hall : forall k, missing s k = false).
    { intros k. destruct (missing s k) eqn:Hm; [|reflexivity].
      pose proof (find_none _ _ Hf k (validation_order_complete k)) as Hn.
      congruence. }
    apply validateForm_result in Hall. congruence.
Qed.

(** C7 (amended) at a concrete state: local name and gender are missing on
    a second attempt; the local-name input is focused. *)
Lemma handleSubmit_focus_recorded_order_witness :
  exists k,
    find (missing namelessState) validation_order = Some k
    /\ snd (handleSubmit sampleBrowser namelessState) renderedWorld =
         match getElementById (key_name k) (document renderedWorld) with
         | Some el =>
             (Normal tt,
              mkWorld (document renderedWorld)
                (log renderedWorld ++ [Focus (el_id el); ScrollIntoView (el_id el)]))
         | None => (Normal tt, renderedWorld)
         end.
Proof.
  apply (handleSubmit_focus_recorded_order sampleBrowser namelessState renderedWorld).
  - vm_compute. reflexivity.
  - vm_compute. reflexivity.
Defined.

Example namelessState_focus :
  snd (handleSubmit sampleBrowser namelessState) renderedWorld
  = (Normal tt,
     mkWorld renderedDocument
       [Focus (Some "nameKorean"%string); ScrollIntoView (Some "nameKorean"%string)]).
Proof. vm_compute. reflexivity. Qed.

(** ** C8: hiding and restoring around the capture *)

Lemma forEach_visibility_sets (v : Visibility) (doc : Document) :
  Forall (fun e => selected e = true -> el_visibility e = v)
    (forEach_visibility v doc).
Proof.
  unfold forEach_visibility. apply Forall_forall. intros e He.
  apply in_map_iff in He. destruct He as (e0 & <- & _).
  destruct (selected e0) eqn:Hs; [reflexivity|].
  intros H. congruence.
Qed.

Lemma compose_capture_fails (b : Browser) (d : FormData) (w : World) :
  formRef_current b = true ->
  html2canvas b (forEach_visibility VisHidden (document w)) = None ->
  compose b d w
  = (Throw, mkWorld (forEach_visibility VisHidden (document w))
              (log w ++ [Html2canvas 2])).
Proof.
  intros Hf Hc. unfold compose. rewrite Hf.
  unfold bind, update_document, await_html2canvas, bind, emit, read_document.
  cbn [document log]. now rewrite Hc.
Qed.

Lemma compose_capture_succeeds (b : Browser) (d : FormData) (w : World)
    (canvas : Canvas) :
  formRef_current b = true ->
  html2canvas b (forEach_visibility VisHidden (document w)) = Some canvas ->
  fst (compose b d w) = Normal tt
  /\ document (snd (compose b d w))
     = forEach_visibility VisVisible (forEach_visibility VisHidden (document w)).
Proof.
  intros Hf Hc. unfold compose. rewrite Hf.
  unfold bind, update_document, await_html2canvas, bind, emit, read_document.
  cbn [document log]. rewrite Hc. unfold ret. cbn [document log].
  destruct (getContext2d b); cbn [document log fst snd]; split; reflexivity.
Qed.

(** C8, as stated, fails on the exit by exception: when the promise of
    [html2canvas] rejects, [handleSubmit] stops at the [await] and the title
    block it hid stays hidden. *)
Lemma capture_failure_leaves_hidden :
  snd (validateForm filledState) = true
  /\ pledgeChecked filledState = true
  /\ fst (snd (handleSubmit failingBrowser filledState) renderedWorld) = Throw
  /\ exists e,
       In e (document (snd (snd (handleSubmit failingBrowser filledState)
                                renderedWorld)))
       /\ selected e = true /\ el_visibility e = VisHidden.
Proof.
  repeat split; try (vm_compute; reflexivity).
  exists (mkElem None true true VisHidden).
  repeat split. vm_compute. now left.
Qed.

(** C8 (amended): a run of the composition in which the capture completes
    ends normally with every element it hid made visible again, whether or
    not a drawing context is obtained; a run in which the capture fails
    stops there, with those elements still hidden. *)
Theorem compose_restores_when_captured (b : Browser) (d : FormData) (w : World) :
  formRef_current b = true ->
  match html2canvas b (forEach_visibility VisHidden (document w)) with
  | Some _ =>
      fst (compose b d w) = Normal tt
      /\ Forall (fun e => selected e = true -> el_visibility e = VisVisible)
           (document (snd (compose b d w)))
      /\ Forall2 (fun e e' => selected e = false -> e' = e)
           (document w) (document (snd (compose b d w)))
  | None =>
      fst (compose b d w) = Throw
      /\ Forall (fun e => selected e = true -> el_visibility e = VisHidden)
           (document (snd (compose b d w)))
  end.
Proof.
  intros Hf.
  destruct (html2canvas b (forEach_visibility VisHidden (document w)))
    as [canvas|] eqn:Hc.
  - destruct (compose_capture_succeeds b d w Hf Hc) as [Hn Hd].
    split; [exact Hn|]. rewrite Hd. split.
    + apply forEach_visibility_sets.
    + clear. induction (document w) as [|e doc IH]; constructor; [|exact IH].
      intros Hs. cbn. rewrite Hs. cbn. now rewrite Hs.
  - rewrite (compose_capture_fails b d w Hf Hc). cbn [fst snd document].
    split; [reflexivity|]. apply forEach_visibility_sets.
Qed.

(** C8 (amended) at a concrete run: the filled form, a capture that
    completes. *)
Lemma compose_restores_when_captured_witness :
  fst (compose sampleBrowser filledFormData renderedWorld) = Normal tt
  /\ Forall (fun e => selected e = true -> el_visibility e = VisVisible)
       (document (snd (compose sampleBrowser filledFormData renderedWorld))).
Proof.
  pose proof (compose_restores_when_captured sampleBrowser filledFormData
                renderedWorld eq_refl) as H.
  cbn [html2canvas sampleBrowser] in H.
  destruct H as (H1 & H2 & _). split; assumption.
Defined.

Example filled_submission_log :
  log (snd (snd (handleSubmit sampleBrowser filledState) renderedWorld))
  = [Html2canvas 2; FillRect 1240 1754; FillText title;
     DrawImage (mkCanvas 1600 2400);
     Download (js "김민수_2026112_입회신청서.jpeg")].
Proof. vm_compute. reflexivity. Qed.

(** * Further properties of the code *)

(** ** [validateForm] *)

Lemma message_nonempty (k : ErrKey) : falsy (message k) = false.
Proof. destruct k as [|f]; [|destruct f]; vm_compute; reflexivity. Qed.

Lemma Obj_get_entries (k : ErrKey) (l : list ErrKey) :
  Obj.get k (map entry l) = if in_dec ErrKey_eq_dec k l then Some (message k) else None.
Proof.
  induction l as [|a l IH]; [reflexivity|].
  cbn [map entry Obj.get]. fold (entry a).
  destruct (ErrKey_eq_dec a k) as [->|Hne].
  - destruct (in_dec ErrKey_eq_dec k (k :: l)) as [_|Hn]; [reflexivity|].
    exfalso. apply Hn. now left.
  - rewrite IH.
    destruct (in_dec ErrKey_eq_dec k l) as [Hin|Hn],
             (in_dec ErrKey_eq_dec k (a :: l)) as [Hin'|Hn']; try reflexivity.
    + exfalso. apply Hn'. now right.
    + destruct Hin' as [E|Hin']; [congruence | contradiction].
Qed.

(** X1: the error set [validateForm] stores is exactly the missing values,
    in the order of its checks, each with its fixed message. *)
Theorem validateForm_records_missing (s : AppState) :
  errors (fst (validateForm s))
  = map entry (filter (missing s) validation_order).
Proof.
  unfold validateForm. cbn [fst errors setErrors]. apply newErrors_of_filter.
Qed.

Lemma Obj_get_validated (s : AppState) (k : ErrKey) :
  Obj.get k (errors (fst (validateForm s)))
  = if missing s k then Some (message k) else None.
Proof.
  unfold validateForm. cbn [fst errors setErrors].
  rewrite newErrors_of_filter, Obj_get_entries.
  destruct (in_dec ErrKey_eq_dec k (filter (missing s) validation_order)) as [Hin|Hn].
  - apply filter_In in Hin. destruct Hin as [_ ->]. reflexivity.
  - destruct (missing s k) eqn:Hm; [|reflexivity].
    exfalso. apply Hn, filter_In. split; [apply validation_order_complete|exact Hm].
Qed.

(** X2: after [validateForm], looking a key up yields its fixed message
    when its value is missing and [undefined] otherwise. *)
Theorem validateForm_lookup (s : AppState) (k : ErrKey) :
  Obj.get k (errors (fst (validateForm s)))
  = if missing s k then Some (message k) else None.
Proof. apply Obj_get_validated. Qed.

(** ** The field handlers *)

Lemma Obj_keys_set_present (k : ErrKey) (v : option jsstring) (o : Obj.t) :
  In k (Obj.keys o) -> Obj.keys (Obj.set k v o) = Obj.keys o.
Proof.
  induction o as [|[k' v'] r IH]; intros Hin; [contradiction|].
  cbn [Obj.set]. destruct (ErrKey_eq_dec k' k) as [->|Hne]; [reflexivity|].
  cbn [Obj.keys map fst]. f_equal. apply IH.
  destruct Hin as [E|Hin]; [contradiction|exact Hin].
Qed.

Lemma Obj_get_present (k : ErrKey) (o : Obj.t) (v : jsstring) :
  Obj.get k o = Some v -> In k (Obj.keys o).
Proof.
  induction o as [|[k' v'] r IH]; intros Hg; [discriminate Hg|].
  cbn [Obj.get] in Hg. destruct (ErrKey_eq_dec k' k) as [->|Hne].
  - now left.
  - right. now apply IH.
Qed.

Lemma has_error_present (k : ErrKey) (o : Obj.t) :
  has_error k o = true -> In k (Obj.keys o).
Proof.
  unfold has_error. destruct (Obj.get k o) as [v|] eqn:Hg; [|discriminate].
  intros _. exact (Obj_get_present _ _ Hg).
Qed.

Lemma has_error_set_other (k k0 : ErrKey) (v : option jsstring) (o : Obj.t) :
  k0 <> k -> has_error k0 (Obj.set k v o) = has_error k0 o.
Proof. intros Hne. unfold has_error. now rewrite Obj_get_set_other. Qed.

Lemma Obj_set_comm (k k' : ErrKey) (v v' : option jsstring) (o : Obj.t) :
  k <> k' -> In k (Obj.keys o) -> In k' (Obj.keys o) ->
  Obj.set k v (Obj.set k' v' o) = Obj.set k' v' (Obj.set k v o).
Proof.
  intros Hne. induction o as [|[a va] r IH]; intros Hk Hk'; [contradiction|].
  cbn [Obj.set].
  destruct (ErrKey_eq_dec a k') as [Ea'|Ha'], (ErrKey_eq_dec a k) as [Ea|Ha];
    cbn [Obj.set].
  - congruence.
  - destruct (ErrKey_eq_dec a k); [congruence|].
    now destruct (ErrKey_eq_dec a k').
  - destruct (ErrKey_eq_dec a k'); [congruence|].
    now destruct (ErrKey_eq_dec a k).
  - destruct (ErrKey_eq_dec a k); [congruence|].
    destruct (ErrKey_eq_dec a k'); [congruence|].
    f_equal. apply IH.
    + destruct Hk as [E|Hk]; [cbn in E; congruence|exact Hk].
    + destruct Hk' as [E|Hk']; [cbn in E; congruence|exact Hk'].
Qed.

Lemma set_field_comm (f g : Field) (u v : jsstring) (d : FormData) :
  f <> g -> set_field f v (set_field g u d) = set_field g u (set_field f v d).
Proof. intros Hne. destruct d, f, g; try reflexivity; contradiction. Qed.

Lemma set_field_twice (f : Field) (u v : jsstring) (d : FormData) :
  set_field f v (set_field f u d) = set_field f v d.
Proof. destruct d, f; reflexivity. Qed.

(** X3: edits of two different fields commute: the state after both is the
    same in either order. *)
Theorem handleChange_commute (f g : Field) (u v : jsstring) (s : AppState) :
  f <> g ->
  handleChange f v (handleChange g u s) = handleChange g u (handleChange f v s).
Proof.
  intros Hne.
  assert (Hk : Kfield f <> Kfield g) by congruence.
  assert (Hk' : Kfield g <> Kfield f) by congruence.
  unfold handleChange. cbn [errors setFormData].
  destruct (has_error (Kfield g) (errors s)) eqn:Hg,
           (has_error (Kfield f) (errors s)) eqn:Hf;
    cbn [errors formData setErrors setFormData profileImage englishNameWarning
         isPledgeModalOpen isBenefitsModalOpen pledgeChecked benefitsChecked];
    rewrite ?has_error_set_other by assumption; rewrite ?Hg, ?Hf;
    cbn [errors formData setErrors setFormData profileImage englishNameWarning
         isPledgeModalOpen isBenefitsModalOpen pledgeChecked benefitsChecked];
    rewrite (set_field_comm u v (formData s) Hne); try reflexivity.
  rewrite (Obj_set_comm None None (errors s) Hk);
    [reflexivity | now apply has_error_present | now apply has_error_present].
Qed.

(** X3 at a concrete state. *)
Lemma handleChange_commute_witness :
  handleChange Kemail (js "a@b.kr") (handleChange Kaddress (js "Busan") rejectedState)
  = handleChange Kaddress (js "Busan") (handleChange Kemail (js "a@b.kr") rejectedState).
Proof. apply handleChange_commute. discriminate. Defined.

(** X4: a second edit of the same field overrides the first: the state is
    the one the second edit alone gives. *)
Theorem handleChange_last_wins (f : Field) (u v : jsstring) (s : AppState) :
  handleChange f v (handleChange f u s) = handleChange f v s.
Proof.
  unfold handleChange. cbn [errors setFormData].
  destruct (has_error (Kfield f) (errors s)) eqn:Hf;
    cbn [errors formData setErrors setFormData profileImage englishNameWarning
         isPledgeModalOpen isBenefitsModalOpen pledgeChecked benefitsChecked].
  - rewrite has_error_cleared.
    cbn [errors formData setErrors setFormData profileImage englishNameWarning
         isPledgeModalOpen isBenefitsModalOpen pledgeChecked benefitsChecked].
    now rewrite set_field_twice.
  - rewrite Hf.
    cbn [errors formData setErrors setFormData profileImage englishNameWarning
         isPledgeModalOpen isBenefitsModalOpen pledgeChecked benefitsChecked].
    now rewrite set_field_twice.
Qed.

(** X5: clearing on edit is only provisional.  Emptying a field removes its
    error, and the next validation records it again; giving it a value
    removes the error for good. *)
Theorem edit_then_validate (f : Field) (value : jsstring) (s : AppState) :
  has_error (Kfield f) (errors (handleChange f value s)) = false
  /\ has_error (Kfield f) (errors (fst (validateForm (handleChange f value s))))
     = falsy value.
Proof.
  split.
  - unfold handleChange. cbn [errors setFormData].
    destruct (has_error (Kfield f) (errors s)) eqn:Hf; cbn [errors setErrors setFormData].
    + apply has_error_cleared.
    + exact Hf.
  - unfold has_error. rewrite Obj_get_validated.
    assert (Hm : missing (handleChange f value s) (Kfield f) = falsy value).
    { unfold missing, handleChange. cbn [errors setFormData].
      destruct (has_error (Kfield f) (errors s));
        cbn [formData setErrors setFormData]; now rewrite get_set_field_same. }
    rewrite Hm. destruct (falsy value) eqn:Hv; [|reflexivity].
    cbn [falsy_opt]. now rewrite message_nonempty.
Qed.

(** X6: when the file read completes, the result becomes the profile
    image and nothing else of the form, the warning or the gate changes.
    The [profileImage] error is cleared only if the render in which the file
    was chosen already showed it; a file chosen before the rejected attempt
    leaves the error in place although the image is now present. *)
Theorem handleImageUpload_onload_effect (closure_errors : Obj.t)
    (result : option jsstring) (s : AppState) :
  profileImage (handleImageUpload_onload closure_errors result s) = result
  /\ formData (handleImageUpload_onload closure_errors result s) = formData s
  /\ englishNameWarning (handleImageUpload_onload closure_errors result s)
     = englishNameWarning s
  /\ same_gate s (handleImageUpload_onload closure_errors result s)
  /\ (forall k, k <> KprofileImage ->
        Obj.get k (errors (handleImageUpload_onload closure_errors result s))
        = Obj.get k (errors s))
  /\ (has_error KprofileImage closure_errors = true ->
      has_error KprofileImage
        (errors (handleImageUpload_onload closure_errors result s)) = false)
  /\ (has_error KprofileImage closure_errors = false ->
      errors (handleImageUpload_onload closure_errors result s) = errors s).
Proof.
  unfold handleImageUpload_onload, same_gate.
  destruct (has_error KprofileImage closure_errors) eqn:Hc;
    cbn [errors formData setErrors setProfileImage profileImage englishNameWarning
         isPledgeModalOpen isBenefitsModalOpen pledgeChecked benefitsChecked];
    repeat split; try discriminate.
  - intros k Hk. now apply Obj_get_set_other.
  - intros _. apply has_error_cleared.
Qed.

(** X6 at a concrete run: the file is chosen on the first render, the
    attempt is rejected, then the read completes. *)
Lemma handleImageUpload_onload_effect_witness :
  missing (handleImageUpload_onload Obj.empty (profileImage filledState) rejectedState)
    KprofileImage = false
  /\ has_error KprofileImage
       (errors (handleImageUpload_onload Obj.empty (profileImage filledState)
                  rejectedState)) = true.
Proof.
  destruct (handleImageUpload_onload_effect Obj.empty (profileImage filledState)
              rejectedState) as (H1 & _ & _ & _ & _ & _ & H7).
  split.
  - unfold missing. rewrite H1. reflexivity.
  - rewrite (H7 eq_refl). vm_compute. reflexivity.
Defined.

(** ** Invariants of the reachable states *)

Lemma handleChange_nameEnglish (name : Field) (value : jsstring) (s : AppState) :
  name <> KnameEnglish ->
  nameEnglish (formData (handleChange name value s)) = nameEnglish (formData s).
Proof.
  intros Hne. unfold handleChange. cbn [errors setFormData].
  destruct (has_error (Kfield name) (errors s)); cbn [formData setErrors setFormData];
    apply (get_set_field_other value (formData s) (f:=KnameEnglish));
    congruence.
Qed.

(** X7: in every reachable state the stored Latin name consists of
    letters A-Z and a-z, whitespace and hyphens only. *)
Theorem reachable_nameEnglish_in_class (b : Browser) (s : AppState) :
  reachable b s -> matches_latin_class (nameEnglish (formData s)).
Proof.
  intros Hr. apply regex_test_iff.
  induction Hr as [|s e Hr IH Hav]; [reflexivity|].
  destruct e as [name value|value|ce result|c|c| | |]; cbn [step fst].
  - rewrite handleChange_nameEnglish; [exact IH|].
    cbn in Hav. now destruct (Field_eq_dec name KnameEnglish).
  - unfold handleEnglishNameChange. destruct (regex_test value) eqn:Ht.
    + destruct (has_error _ _); cbn [formData setErrors setFormData setEnglishNameWarning];
        change (nameEnglish (set_field KnameEnglish value (formData s)))
          with (get_field KnameEnglish (set_field KnameEnglish value (formData s)));
        rewrite get_set_field_same; exact Ht.
    + exact IH.
  - unfold handleImageUpload_onload. destruct (has_error _ _); exact IH.
  - unfold benefitsCheckbox_onChange. destruct c; exact IH.
  - destruct c; exact IH.
  - exact IH.
  - exact IH.
  - exact IH.
Qed.

(** X7 on a reachable state: a name was typed, then an input with a digit
    was refused. *)
Lemma reachable_nameEnglish_in_class_witness :
  matches_latin_class
    (nameEnglish (formData
       (fst (step sampleBrowser (EnglishNameChange (js "Kim7"))
          (fst (step sampleBrowser (EnglishNameChange (js "Kim")) initialState)))))).
Proof.
  apply (reachable_nameEnglish_in_class (b:=sampleBrowser)).
  apply reachable_step; [apply reachable_step; [apply reachable_init|]|];
    reflexivity.
Defined.

(** X8: in every reachable state the pledge modal is closed whenever the
    pledge is accepted; so whenever the submit button is enabled the pledge
    modal is not on screen. *)
Theorem reachable_accepted_modal_closed (b : Browser) (s : AppState) :
  reachable b s ->
  (pledgeChecked s = true -> isPledgeModalOpen s = false)
  /\ (available s SubmitClick = true -> isPledgeModalOpen s = false).
Proof.
  intros Hr.
  assert (H : pledgeChecked s = true -> isPledgeModalOpen s = false).
  { induction Hr as [|s e Hr IH Hav]; [discriminate|].
    destruct e as [name value|value|ce result|c|c| | |]; cbn [step fst].
    - unfold handleChange. cbn [errors setFormData].
      destruct (has_error _ _); exact IH.
    - unfold handleEnglishNameChange.
      destruct (regex_test value); [destruct (has_error _ _)|]; exact IH.
    - unfold handleImageUpload_onload. destruct (has_error _ _); exact IH.
    - unfold benefitsCheckbox_onChange. destruct c; exact IH.
    - cbn in Hav. destruct c; cbn.
      + intros Hp. rewrite Hp in Hav. discriminate Hav.
      + discriminate.
    - reflexivity.
    - exact IH.
    - exact IH. }
  split; [exact H|].
  intros Hav. apply H. cbn in Hav. unfold submitButton_disabled in Hav.
  now destruct (pledgeChecked s).
Qed.

(** X8 on a reachable state: box checked, modal confirmed. *)
Lemma reachable_accepted_modal_closed_witness :
  isPledgeModalOpen
    (fst (step sampleBrowser PledgeConfirm
       (fst (step sampleBrowser (PledgeCheckbox true) initialState)))) = false.
Proof.
  apply (reachable_accepted_modal_closed (b:=sampleBrowser)).
  - apply reachable_step; [apply reachable_step; [apply reachable_init|]|];
      reflexivity.
  - reflexivity.
Defined.

Lemma Obj_keys_set_in (x k : ErrKey) (v : option jsstring) (o : Obj.t) :
  In x (Obj.keys (Obj.set k v o)) <-> In x (Obj.keys o) \/ x = k.
Proof.
  induction o as [|[a va] r IH].
  - cbn. intuition congruence.
  - cbn [Obj.set]. destruct (ErrKey_eq_dec a k) as [E|Hne].
    + cbn. intuition congruence.
    + cbn [Obj.keys map fst In]. fold (Obj.keys (Obj.set k v r)) (Obj.keys r).
      rewrite IH. tauto.
Qed.

Lemma errors_wf_set_undefined (k : ErrKey) (o : Obj.t) :
  errors_wf o -> errors_wf (Obj.set k None o).
Proof.
  unfold errors_wf. induction o as [|[a va] r IH]; intros [Hnd Hall].
  - cbn. split; [repeat constructor; intros []|].
    constructor; [now left | constructor].
  - inversion Hnd as [|? ? Hnotin Hnd']; subst.
    inversion Hall as [|? ? Ha Hall']; subst.
    cbn [Obj.set]. destruct (ErrKey_eq_dec a k) as [E|Hne].
    + split; [exact Hnd|]. constructor; [now left | exact Hall'].
    + destruct (IH (conj Hnd' Hall')) as [IHnd IHall].
      split.
      * cbn [Obj.keys map fst]. constructor; [|exact IHnd].
        fold (Obj.keys (Obj.set k None r)). rewrite Obj_keys_set_in.
        intros [Hin|E]; [contradiction | congruence].
      * constructor; assumption.
Qed.

Lemma errors_wf_validateForm (s : AppState) :
  errors_wf (errors (fst (validateForm s))).
Proof.
  unfold validateForm. cbn [fst errors setErrors]. split.
  - rewrite newErrors_keys. apply NoDup_filter, validation_order_NoDup.
  - rewrite newErrors_of_filter. apply Forall_forall. intros kv Hin.
    apply in_map_iff in Hin. destruct Hin as (k & <- & _). now right.
Qed.

(** X9: in every reachable state each key occurs once in the error set
    and holds either [undefined] or the fixed message of that very key, and
    the Latin-name warning is empty or the fixed warning. *)
Theorem reachable_errors_wf (b : Browser) (s : AppState) :
  reachable b s ->
  errors_wf (errors s)
  /\ (englishNameWarning s = [] \/ englishNameWarning s = msg_englishNameWarning).
Proof.
  induction 1 as [|s e Hr [IHe IHw] Hav].
  - split; [|now left]. split; constructor.
  - destruct e as [name value|value|ce result|c|c| | |]; cbn [step fst].
    + unfold handleChange. cbn [errors setFormData].
      destruct (has_error _ _); cbn [errors englishNameWarning setErrors setFormData];
        (split; [|exact IHw]); [now apply errors_wf_set_undefined | exact IHe].
    + unfold handleEnglishNameChange.
      destruct (regex_test value); [destruct (has_error _ _)|];
        cbn [errors englishNameWarning setErrors setFormData setEnglishNameWarning].
      * split; [now apply errors_wf_set_undefined | now left].
      * split; [exact IHe | now left].
      * split; [exact IHe | now right].
    + unfold handleImageUpload_onload.
      destruct (has_error _ _); cbn [errors englishNameWarning setErrors setProfileImage];
        (split; [|exact IHw]); [now apply errors_wf_set_undefined | exact IHe].
    + unfold benefitsCheckbox_onChange. destruct c; now split.
    + destruct c; now split.
    + now split.
    + now split.
    + rewrite handleSubmit_state. split; [apply errors_wf_validateForm | exact IHw].
Qed.

(** X9 on a reachable state: a rejected attempt followed by an edit. *)
Lemma reachable_errors_wf_witness :
  errors_wf
    (errors (fst (step sampleBrowser (Change Kemail (js "a@b.kr")) rejectedState))).
Proof.
  apply (reachable_errors_wf (b:=sampleBrowser)).
  apply reachable_step; [|reflexivity].
  change rejectedState with
    (fst (step sampleBrowser SubmitClick
       (fst (step sampleBrowser PledgeConfirm
          (fst (step sampleBrowser (PledgeCheckbox true) initialState)))))).
  repeat (apply reachable_step; [|reflexivity]). apply reachable_init.
Defined.

(** ** The acknowledgment tracks *)

(** X10: once the pledge modal is open, only its confirm button closes it:
    every other event leaves it open. *)
Theorem pledge_modal_closed_only_by_confirm (b : Browser) (e : Event) (s : AppState) :
  isPledgeModalOpen s = true -> e <> PledgeConfirm ->
  isPledgeModalOpen (fst (step b e s)) = true.
Proof.
  intros Ho He.
  destruct e as [name value|value|ce result|c|c| | |]; cbn [step fst];
    try contradiction.
  - unfold handleChange. cbn [errors setFormData].
    destruct (has_error _ _); exact Ho.
  - unfold handleEnglishNameChange.
    destruct (regex_test value); [destruct (has_error _ _)|]; exact Ho.
  - unfold handleImageUpload_onload. destruct (has_error _ _); exact Ho.
  - unfold benefitsCheckbox_onChange. destruct c; exact Ho.
  - destruct c; [reflexivity | exact Ho].
  - exact Ho.
  - exact Ho.
Qed.

(** X10 at a concrete state: the modal is open and the box is clicked
    again. *)
Lemma pledge_modal_closed_only_by_confirm_witness :
  isPledgeModalOpen
    (fst (step sampleBrowser (PledgeCheckbox true)
       (pledgeCheckbox_onChange true initialState))) = true.
Proof.
  apply pledge_modal_closed_only_by_confirm; [reflexivity | discriminate].
Defined.

(** X11: the benefits track is informational.  Its two controls change
    nothing but the benefits cells, and what a submit attempt does is the
    same whatever those cells hold. *)
Theorem benefits_track_independent (b : Browser) (s : AppState) (c o : bool) :
  only_benefits_differ s (fst (step b (BenefitsCheckbox c) s))
  /\ only_benefits_differ s (fst (step b BenefitsConfirm s))
  /\ benefitsChecked (fst (step b (BenefitsCheckbox c) s)) = c
  /\ benefitsChecked (fst (step b BenefitsConfirm s)) = benefitsChecked s
  /\ snd (handleSubmit b (setBenefitsChecked c (setIsBenefitsModalOpen o s)))
     = snd (handleSubmit b s).
Proof.
  unfold only_benefits_differ. cbn [step fst].
  unfold benefitsCheckbox_onChange, benefitsModal_confirm.
  destruct c; cbn; repeat split.
Qed.

(** ** [calculateGrade] *)

Lemma label_app_nonempty (label rest : jsstring) :
  falsy label = false -> label ++ rest <> [].
Proof. destruct label; [discriminate|]. intros _ H. discriminate H. Qed.

(** X12: for a readable birth date the grade is empty exactly when the
    birth date is later than today; any birth date up to today gives a
    label. *)
Theorem calculateGrade_empty_iff_future (newDate : jsstring -> JSDate)
    (today : JSDate) (birthDate : jsstring)
    (birthY birthM birthD nowY nowM nowD : Z) :
  birthDate <> [] ->
  newDate birthDate = mkDate (Int birthY) (Int birthM) (Int birthD) ->
  today = mkDate (Int nowY) (Int nowM) (Int nowD) ->
  (calculateGrade newDate today birthDate = []
   <-> date_after birthY birthM birthD nowY nowM nowD).
Proof.
  intros Hne Hbirth Htoday.
  assert (Hdec : precedes nowM nowD birthM birthD
                 \/ ~ precedes nowM nowD birthM birthD)
    by (unfold precedes; lia).
  destruct Hdec as [Hp|Hp].
  - rewrite (calculateGrade_of_age (age:=(nowY - birthY - 1)%Z) _ Hne Hbirth Htoday)
      by (left; split; [exact Hp|reflexivity]).
    cbn zeta. cbn [ge sub]. unfold date_after, precedes in *.
    repeat match goal with
      | |- context [(?a <=? ?b)%Z] => destruct (Z.leb_spec a b)
      end;
      (split; [intros Hres; try lia; exfalso; revert Hres;
               first [apply label_app_nonempty; reflexivity | discriminate]
              | intros Hres; try reflexivity; exfalso; lia]).
  - rewrite (calculateGrade_of_age (age:=(nowY - birthY)%Z) _ Hne Hbirth Htoday)
      by (right; split; [exact Hp|reflexivity]).
    cbn zeta. cbn [ge sub]. unfold date_after, precedes in *.
    repeat match goal with
      | |- context [(?a <=? ?b)%Z] => destruct (Z.leb_spec a b)
      end;
      (split; [intros Hres; try lia; exfalso; revert Hres;
               first [apply label_app_nonempty; reflexivity | discriminate]
              | intros Hres; try reflexivity; exfalso; lia]).
Qed.

(** X12 at a concrete date: born today. *)
Lemma calculateGrade_empty_iff_future_witness :
  calculateGrade (fun _ => sampleToday) sampleToday sampleBirthDate <> [].
Proof.
  intros H.
  apply (calculateGrade_empty_iff_future (fun _ => sampleToday)
           (birthDate:=sampleBirthDate) (today:=sampleToday)
           (birthY:=2026) (birthM:=10) (birthD:=2)
           (nowY:=2026) (nowM:=10) (nowD:=2)) in H.
  - unfold date_after in H. lia.
  - vm_compute. discriminate.
  - reflexivity.
  - reflexivity.
Defined.

(** ** [handleSubmit]: the composition *)

Lemma compose_run (b : Browser) (d : FormData) (w : World) (canvas : Canvas) :
  formRef_current b = true ->
  html2canvas b (forEach_visibility VisHidden (document w)) = Some canvas ->
  compose b d w =
    (Normal tt,
     mkWorld
       (forEach_visibility VisVisible (forEach_visibility VisHidden (document w)))
       (log w
        ++ (Html2canvas 2
            :: (if getContext2d b
                then [FillRect a4Width a4Height; FillText title; DrawImage canvas]
                else [])
            ++ [Download (nameKorean d ++ js "_" ++ strip_date (localeDate b)
                          ++ js "_입회신청서.jpeg")]))).
Proof.
  intros Hf Hc. unfold compose. rewrite Hf.
  unfold bind, update_document, await_html2canvas, bind, emit, read_document.
  cbn [document log]. rewrite Hc. unfold ret. cbn [document log].
  destruct (getContext2d b); cbn [document log app]; f_equal; f_equal;
    repeat rewrite <- app_assoc; reflexivity.
Qed.

(** X13: a submit attempt that passes validation with the pledge accepted,
    and whose capture completes, ends normally having called the capture
    once on the page with the interaction-only elements hidden, drawn the
    white page, the title and the capture when a drawing context exists,
    and started exactly one download, named after the local name, the date
    without dots and spaces, and the fixed suffix; without a drawing
    context it still starts the download, with nothing drawn. *)
Theorem handleSubmit_composition_log (b : Browser) (s : AppState) (w : World)
    (canvas : Canvas) :
  snd (validateForm s) = true -> pledgeChecked s = true ->
  formRef_current b = true ->
  html2canvas b (forEach_visibility VisHidden (document w)) = Some canvas ->
  fst (snd (handleSubmit b s) w) = Normal tt
  /\ new_effects w (snd (snd (handleSubmit b s) w))
     = Html2canvas 2
       :: (if getContext2d b
           then [FillRect a4Width a4Height; FillText title; DrawImage canvas]
           else [])
       ++ [Download (nameKorean (formData s) ++ js "_" ++ strip_date (localeDate b)
                     ++ js "_입회신청서.jpeg")].
Proof.
  intros Hv Hp Hf Hc.
  rewrite (handleSubmit_composes b s Hv Hp), (@compose_run b (formData s) w canvas Hf Hc).
  cbn [fst snd]. split; [reflexivity|]. apply new_effects_app.
Qed.

(** X13 at a concrete run. *)
Lemma handleSubmit_composition_log_witness :
  fst (snd (handleSubmit sampleBrowser filledState) renderedWorld) = Normal tt
  /\ new_effects renderedWorld
       (snd (snd (handleSubmit sampleBrowser filledState) renderedWorld))
     = Html2canvas 2
       :: (if getContext2d sampleBrowser
           then [FillRect a4Width a4Height; FillText title;
                 DrawImage (mkCanvas 1600 2400)]
           else [])
       ++ [Download (nameKorean (formData filledState) ++ js "_"
                     ++ strip_date (localeDate sampleBrowser)
                     ++ js "_입회신청서.jpeg")].
Proof.
  apply handleSubmit_composition_log.
  - vm_compute. reflexivity.
  - reflexivity.
  - reflexivity.
  - reflexivity.
Defined.

(** X14: when the capture fails, the attempt ends by the exception having
    only called the capture: nothing is drawn and no download starts. *)
Theorem handleSubmit_capture_failure_log (b : Browser) (s : AppState) (w : World) :
  snd (validateForm s) = true -> pledgeChecked s = true ->
  formRef_current b = true ->
  html2canvas b (forEach_visibility VisHidden (document w)) = None ->
  fst (snd (handleSubmit b s) w) = Throw
  /\ new_effects w (snd (snd (handleSubmit b s) w)) = [Html2canvas 2].
Proof.
  intros Hv Hp Hf Hc.
  rewrite (handleSubmit_composes b s Hv Hp), (@compose_capture_fails b (formData s) w Hf Hc).
  cbn [fst snd]. split; [reflexivity|]. apply new_effects_app.
Qed.

(** X14 at a concrete run. *)
Lemma handleSubmit_capture_failure_log_witness :
  fst (snd (handleSubmit failingBrowser filledState) renderedWorld) = Throw
  /\ new_effects renderedWorld
       (snd (snd (handleSubmit failingBrowser filledState) renderedWorld))
     = [Html2canvas 2].
Proof.
  apply handleSubmit_capture_failure_log.
  - vm_compute. reflexivity.
  - reflexivity.
  - reflexivity.
  - reflexivity.
Defined.

(** X15: when [formRef.current] is not set, an attempt that passes
    validation with the pledge accepted does nothing at all: no alert, no
    capture, no download, the page untouched. *)
Theorem handleSubmit_without_form_element (b : Browser) (s : AppState) (w : World) :
  snd (validateForm s) = true -> pledgeChecked s = true ->
  formRef_current b = false ->
  snd (handleSubmit b s) w = (Normal tt, w).
Proof.
  intros Hv Hp Hf. rewrite (handleSubmit_composes b s Hv Hp).
  unfold compose. now rewrite Hf.
Qed.

(** X15 at a concrete run. *)
Lemma handleSubmit_without_form_element_witness :
  snd (handleSubmit (mkBrowser (fun _ => None) true false []) filledState)
    renderedWorld
  = (Normal tt, renderedWorld).
Proof.
  apply handleSubmit_without_form_element.
  - vm_compute. reflexivity.
  - reflexivity.
  - reflexivity.
Defined.

(** X16: the date part of the file name keeps every character of the
    locale date but dots and spaces, in order; so it holds neither, and a
    date without them is kept as it is. *)
Theorem strip_date_removes_dots_and_spaces (d : jsstring) :
  strip_date d = filter (fun c => negb (c =? 46)%N && negb (c =? 32)%N) d
  /\ Forall (fun c => c <> 46%N /\ c <> 32%N) (strip_date d)
  /\ (Forall (fun c => c <> 46%N /\ c <> 32%N) d -> strip_date d = d).
Proof.
  assert (E : strip_date d
              = filter (fun c => negb (c =? 46)%N && negb (c =? 32)%N) d).
  { unfold strip_date. induction d as [|c d IH]; [reflexivity|].
    cbn [filter]. destruct (c =? 46)%N; cbn [negb andb]; [exact IH|].
    cbn [filter]. destruct (c =? 32)%N; cbn [negb]; [exact IH|].
    now rewrite IH. }
  split; [exact E|]. rewrite E. split.
  - apply Forall_forall. intros c Hc. apply filter_In in Hc.
    destruct Hc as [_ Hc]. apply andb_true_iff in Hc.
    rewrite !negb_true_iff, !N.eqb_neq in Hc. exact Hc.
  - clear E. intros Hall. induction d as [|c d IH]; [reflexivity|].
    inversion Hall as [|? ? [H1 H2] Hall']; subst.
    cbn [filter]. apply N.eqb_neq in H1, H2. rewrite H1, H2. cbn [negb andb].
    f_equal. exact (IH Hall').
Qed.

(** X16 at a concrete date. *)
Lemma strip_date_removes_dots_and_spaces_witness :
  strip_date (js "2026112") = js "2026112".
Proof.
  apply (strip_date_removes_dots_and_spaces (js "2026112")).
  vm_compute.
  repeat (apply Forall_cons; [split; intros H; discriminate H|]). apply Forall_nil.
Defined.

(** ** [handleSubmit]: the focus after a rejected attempt *)

(** X17: an attempt that is rejected while the stored error set is empty,
    as the first attempt is, focuses nothing and logs nothing, whatever is
    missing: the handler looks the key up in the error set of the render
    that created it. *)
Theorem handleSubmit_empty_errors_no_focus (b : Browser) (s : AppState) (w : World) :
  snd (validateForm s) = false -> errors s = Obj.empty ->
  getElementById "undefined" (document w) = None ->
  snd (handleSubmit b s) w = (Normal tt, w).
Proof.
  intros Hv He Hd. rewrite (handleSubmit_invalid b s w Hv), He.
  cbn [Obj.keys Obj.empty map hd_error key_id]. now rewrite Hd.
Qed.

(** X17 at a concrete run: the pledge is confirmed on the empty form and
    the button pressed. *)
Lemma handleSubmit_empty_errors_no_focus_witness :
  snd (handleSubmit sampleBrowser
         (pledgeModal_confirm (pledgeCheckbox_onChange true initialState)))
    renderedWorld
  = (Normal tt, renderedWorld).
Proof.
  apply handleSubmit_empty_errors_no_focus.
  - vm_compute. reflexivity.
  - reflexivity.
  - reflexivity.
Defined.

(** X18: on a rejected attempt whose stored error set is the one
    validation computes, a missing profile image is the first key; no
    element of the page has the id [profileImage], so nothing is focused,
    whatever else is missing. *)
Theorem handleSubmit_missing_photo_no_focus (b : Browser) (s : AppState) (w : World) :
  errors s = newErrors_of (formData s) (profileImage s) ->
  missing s KprofileImage = true ->
  getElementById "profileImage" (document w) = None ->
  snd (validateForm s) = false
  /\ snd (handleSubmit b s) w = (Normal tt, w).
Proof.
  intros He Hm Hd.
  assert (Hv : snd (validateForm s) = false).
  { destruct (snd (validateForm s)) eqn:Hv; [|reflexivity].
    pose proof (proj1 (validateForm_result s) Hv KprofileImage) as Hn.
    congruence. }
  split; [exact Hv|].
  rewrite (handleSubmit_invalid b s w Hv), He, newErrors_keys.
  unfold validation_order. cbn [filter]. rewrite Hm.
  cbn [hd_error key_id key_name]. now rewrite Hd.
Qed.

(** X18 at a concrete run: the second attempt on the empty form. *)
Lemma handleSubmit_missing_photo_no_focus_witness :
  snd (validateForm rejectedState) = false
  /\ snd (handleSubmit sampleBrowser rejectedState) renderedWorld
     = (Normal tt, renderedWorld).
Proof.
  apply handleSubmit_missing_photo_no_focus.
  - vm_compute. reflexivity.
  - reflexivity.
  - reflexivity.
Defined.

(** X19: clearing an error on edit keeps its key in place.  If the first
    recorded error is that of a field, then after editing that field, with
    whatever value, the next rejected attempt still looks for the element
    of that field: it is focused again even when it is no longer
    missing. *)
Theorem handleSubmit_focuses_edited_field (b : Browser) (s : AppState)
    (f : Field) (value : jsstring) (w : World) :
  errors s = newErrors_of (formData s) (profileImage s) ->
  find (missing s) validation_order = Some (Kfield f) ->
  snd (validateForm (handleChange f value s)) = false ->
  snd (handleSubmit b (handleChange f value s)) w =
    match getElementById (field_name f) (document w) with
    | Some el =>
        (Normal tt,
         mkWorld (document w)
           (log w ++ [Focus (el_id el); ScrollIntoView (el_id el)]))
    | None => (Normal tt, w)
    end.
Proof.
  intros He Hf Hv.
  rewrite (handleSubmit_invalid b _ w Hv).
  assert (Hk : Obj.keys (errors (handleChange f value s)) = Obj.keys (errors s)).
  { unfold handleChange. cbn [errors setFormData].
    destruct (has_error (Kfield f) (errors s)) eqn:Hh; cbn [errors setErrors setFormData].
    - apply Obj_keys_set_present. now apply has_error_present.
    - reflexivity. }
  rewrite Hk, He, newErrors_keys, hd_error_filter, Hf. reflexivity.
Qed.

(** X19 at a concrete run: affiliation and local name were missing; the
    affiliation is filled in, the attempt is rejected for the local name,
    and the affiliation control is focused. *)
Lemma handleSubmit_focuses_edited_field_witness :
  missing (handleChange Kaffiliation (js "Seoul Robot Club") twoMissingState)
    (Kfield Kaffiliation) = false
  /\ snd (handleSubmit sampleBrowser
            (handleChange Kaffiliation (js "Seoul Robot Club") twoMissingState))
       renderedWorld
     = match getElementById (field_name Kaffiliation) (document renderedWorld) with
       | Some el =>
           (Normal tt,
            mkWorld (document renderedWorld)
              (log renderedWorld ++ [Focus (el_id el); ScrollIntoView (el_id el)]))
       | None => (Normal tt, renderedWorld)
       end.
Proof.
  split; [vm_compute; reflexivity|].
  apply handleSubmit_focuses_edited_field.
  - vm_compute. reflexivity.
  - vm_compute. reflexivity.
  - vm_compute. reflexivity.
Defined.

Example edited_field_focus :
  snd (handleSubmit sampleBrowser
         (handleChange Kaffiliation (js "Seoul Robot Club") twoMissingState))
    renderedWorld
  = (Normal tt,
     mkWorld renderedDocument
       [Focus (Some "affiliation"%string); ScrollIntoView (Some "affiliation"%string)]).
Proof. vm_compute. reflexivity. Qed.

(** ** What is rendered under the controls *)

(** X20: after a validation, the message rendered under a control is the
    fixed message of its key exactly when the value is missing; under the
    Latin-name input a pending warning is rendered instead, and hides the
    error. *)
Theorem messageUnder_validated (s : AppState) (k : ErrKey) :
  messageUnder (fst (validateForm s)) k =
    if ErrKey_eq_dec k (Kfield KnameEnglish)
    then if falsy (englishNameWarning s)
         then (if missing s k then Some (message k) else None)
         else Some (englishNameWarning s)
    else if missing s k then Some (message k) else None.
Proof.
  assert (R : rendered_text (Obj.get k (errors (fst (validateForm s))))
              = if missing s k then Some (message k) else None).
  { rewrite Obj_get_validated. destruct (missing s k); [|reflexivity].
    pose proof (message_nonempty k) as Hm. cbn [rendered_text].
    destruct (message k); [discriminate Hm | reflexivity]. }
  destruct (ErrKey_eq_dec k (Kfield KnameEnglish)) as [->|Hne].
  - cbn [messageUnder]. rewrite R. reflexivity.
  - destruct k as [|f]; [exact R|].
    destruct f; try exact R. contradiction.
Qed.

(** ** Sequences of handlers *)

(** X21: a refused Latin-name input leaves no trace once an accepted one
    follows: the state is the one the accepted input alone gives. *)
Theorem refused_then_accepted_name (refused accepted : jsstring) (s : AppState) :
  regex_test refused = false -> regex_test accepted = true ->
  handleEnglishNameChange accepted (handleEnglishNameChange refused s)
  = handleEnglishNameChange accepted s.
Proof.
  intros Hr Ha. unfold handleEnglishNameChange. rewrite Hr, Ha.
  cbn [errors formData setEnglishNameWarning].
  destruct (has_error (Kfield KnameEnglish) (errors s)); reflexivity.
Qed.

(** X21 at concrete inputs. *)
Lemma refused_then_accepted_name_witness :
  handleEnglishNameChange (js "Lee") (handleEnglishNameChange (js "Lee2") rejectedState)
  = handleEnglishNameChange (js "Lee") rejectedState.
Proof.
  apply refused_then_accepted_name; vm_compute; reflexivity.
Defined.

(** X22: checking the pledge box, confirming the modal and unchecking the
    box again brings a state with the pledge unaccepted and the modal
    closed back to itself. *)
Theorem pledge_round_trip (s : AppState) :
  pledgeChecked s = false -> isPledgeModalOpen s = false ->
  pledgeCheckbox_onChange false
    (pledgeModal_confirm (pledgeCheckbox_onChange true s)) = s.
Proof.
  intros Hp Hm. destruct s. cbn in *. now subst.
Qed.

(** X22 on the initial state. *)
Lemma pledge_round_trip_witness :
  pledgeCheckbox_onChange false
    (pledgeModal_confirm (pledgeCheckbox_onChange true initialState))
  = initialState.
Proof. apply pledge_round_trip; reflexivity. Defined.

(** * The numbers of the composition *)

Section DoubleRounding.

Local Open Scope Q_scope.

Import Double.

Lemma pow2_pos (e : Z) : 0 < pow2 e.
Proof. apply Qpower_0_lt. reflexivity. Qed.

Lemma pow2_add (a b : Z) : pow2 (a + b) == pow2 a * pow2 b.
Proof. apply Qpower_plus. discriminate. Qed.

Lemma pow2_le (a b : Z) : (a <= b)%Z -> pow2 a <= pow2 b.
Proof. intros H. apply Qpower_le_compat_l; [exact H | discriminate]. Qed.

Lemma pow2_lt_inv (a b : Z) : pow2 a < pow2 b -> (a < b)%Z.
Proof. intros H. apply (Qpower_lt_compat_l_inv 2); [exact H | reflexivity]. Qed.

Lemma pow2_inject (n : Z) : (0 <= n)%Z -> inject_Z (2 ^ n) == pow2 n.
Proof. intros H. apply (Zpower_Qpower 2 n H). Qed.

Lemma rne_error (m : Q) : Qabs (inject_Z (rne m) - m) <= 1 # 2.
Proof.
  unfold rne.
  pose proof (Qfloor_le m) as Hlo. pose proof (Qlt_floor m) as Hhi.
  rewrite inject_Z_plus in Hhi. change (inject_Z 1) with 1 in Hhi.
  apply Qabs_Qle_condition.
  destruct (Qcompare_spec (m - inject_Z (Qfloor m)) (1 # 2)) as [E|L|G].
  - destruct (Z.even (Qfloor m));
      [|rewrite inject_Z_plus; change (inject_Z 1) with 1]; split; lra.
  - split; lra.
  - rewrite inject_Z_plus. change (inject_Z 1) with 1. split; lra.
Qed.

Lemma round_error (x : Q) :
  Qabs (round x - x) <= pow2 (exponent x) * (1 # 2).
Proof.
  unfold round. rewrite Qred_correct.
  set (e := exponent x). set (n := rne (x / pow2 e)).
  pose proof (pow2_pos e) as Hp.
  assert (E : inject_Z n * pow2 e - x == (inject_Z n - x / pow2 e) * pow2 e).
  { field. intros H0. rewrite H0 in Hp. discriminate Hp. }
  rewrite E, Qabs_Qmult, (Qabs_pos (pow2 e)) by (apply Qlt_le_weak, Hp).
  rewrite (Qmult_comm (pow2 e)).
  apply Qmult_le_compat_r; [apply rne_error | apply Qlt_le_weak, Hp].
Qed.

Lemma ilog2_spec (x : Q) :
  0 < x -> pow2 (ilog2 x) <= x /\ x < pow2 (ilog2 x + 1).
Proof.
  intros Hx. destruct x as [p q]. unfold ilog2. cbn [Qnum Qden].
  assert (Hp : (0 < p)%Z) by (unfold Qlt in Hx; cbn in Hx; lia).
  set (lp := Z.log2 p). set (lq := Z.log2 (Zpos q)).
  assert (Hlp : (0 <= lp)%Z) by apply Z.log2_nonneg.
  assert (Hlq : (0 <= lq)%Z) by apply Z.log2_nonneg.
  destruct (Z.log2_spec p Hp) as [Hp1 Hp2]. fold lp in Hp1, Hp2.
  destruct (Z.log2_spec (Zpos q) eq_refl) as [Hq1 Hq2]. fold lq in Hq1, Hq2.
  assert (HP1 : pow2 lp <= inject_Z p)
    by (rewrite <- pow2_inject by exact Hlp; now rewrite <- Zle_Qle).
  assert (HP2 : inject_Z p < pow2 (lp + 1))
    by (rewrite <- pow2_inject by lia; rewrite <- Zlt_Qlt;
        now rewrite <- Z.add_1_r in Hp2).
  assert (HQ1 : pow2 lq <= inject_Z (Zpos q))
    by (rewrite <- pow2_inject by exact Hlq; now rewrite <- Zle_Qle).
  assert (HQ2 : inject_Z (Zpos q) < pow2 (lq + 1))
    by (rewrite <- pow2_inject by lia; rewrite <- Zlt_Qlt;
        now rewrite <- Z.add_1_r in Hq2).
  assert (HQ0 : 0 < inject_Z (Zpos q)) by reflexivity.
  assert (Ex : (p # q) * inject_Z (Zpos q) == inject_Z p).
  { rewrite (Qmake_Qdiv p q). field. discriminate. }
  destruct (Qle_bool (pow2 (lp - lq)) (p # q)) eqn:Ht.
  - apply Qle_bool_iff in Ht. split; [exact Ht|].
    apply (Qmult_lt_r _ _ (inject_Z (Zpos q)) HQ0). rewrite Ex.
    apply (Qlt_le_trans _ _ _ HP2).
    replace (lp + 1)%Z with ((lp - lq + 1) + lq)%Z by ring.
    rewrite pow2_add.
    apply Qmult_le_l; [apply pow2_pos | exact HQ1].
  - assert (Hlt : (p # q) < pow2 (lp - lq)).
    { apply Qnot_le_lt. intros H. apply Qle_bool_iff in H. congruence. }
    split.
    + apply Qlt_le_weak.
      apply (Qmult_lt_r _ _ (inject_Z (Zpos q)) HQ0). rewrite Ex.
      apply (Qlt_le_trans _ (pow2 lp)); [|exact HP1].
      replace lp with ((lp - lq - 1) + (lq + 1))%Z at 2 by ring.
      rewrite pow2_add.
      apply Qmult_lt_l; [apply pow2_pos | exact HQ2].
    + now replace (lp - lq - 1 + 1)%Z with (lp - lq)%Z by ring.
Qed.

Lemma ilog2_zero (x : Q) : ~ 0 < x -> 0 <= x -> (ilog2 x <= -1)%Z.
Proof.
  intros Hn Hx. destruct x as [p q].
  assert (Hp : p = 0%Z).
  { unfold Qlt, Qle in *. cbn in *. lia. }
  subst p. unfold ilog2. cbn [Qnum Qden].
  pose proof (Z.log2_nonneg (Zpos q)) as Hq.
  destruct (Qle_bool (pow2 (Z.log2 0 - Z.log2 (Zpos q))) (0 # q)) eqn:Ht.
  - apply Qle_bool_iff in Ht.
    pose proof (pow2_pos (Z.log2 0 - Z.log2 (Zpos q))) as Hpos.
    exfalso. apply (Qlt_not_le _ _ Hpos).
    apply (Qle_trans _ _ _ Ht). unfold Qle. cbn. lia.
  - change (Z.log2 0) with 0%Z. lia.
Qed.

Lemma exponent_below (x : Q) (k : Z) :
  Qabs x < pow2 k -> (0 <= k)%Z -> (exponent x <= k - 53)%Z.
Proof.
  intros Hx Hk. unfold exponent.
  destruct (Qlt_le_dec 0 (Qabs x)) as [Hpos|Hz].
  - destruct (ilog2_spec Hpos) as [Hlo _].
    assert (Hl : (ilog2 (Qabs x) < k)%Z)
      by (apply pow2_lt_inv, (Qle_lt_trans _ _ _ Hlo Hx)).
    lia.
  - assert (Hl : (ilog2 (Qabs x) <= -1)%Z).
    { apply ilog2_zero; [apply Qle_not_lt, Hz | apply Qabs_nonneg]. }
    lia.
Qed.

Lemma round_error_below (x : Q) (k : Z) :
  Qabs x < pow2 k -> (0 <= k)%Z -> Qabs (round x - x) <= pow2 (k - 54).
Proof.
  intros Hx Hk. apply (Qle_trans _ _ _ (round_error x)).
  replace (k - 54)%Z with ((k - 53) + -1)%Z by ring.
  rewrite pow2_add. change (pow2 (-1)) with (/ 2).
  apply Qmult_le_compat_r; [|discriminate].
  apply pow2_le, exponent_below; assumption.
Qed.

Lemma exponent_normal (x : Q) :
  pow2 (-1022) <= Qabs x -> pow2 (exponent x + 52) <= Qabs x.
Proof.
  intros Hx.
  assert (Hpos : 0 < Qabs x) by (apply (Qlt_le_trans _ _ _ (pow2_pos (-1022)) Hx)).
  destruct (ilog2_spec Hpos) as [Hlo Hhi].
  assert (Hl : (-1022 < ilog2 (Qabs x) + 1)%Z)
    by (apply pow2_lt_inv, (Qle_lt_trans _ _ _ Hx Hhi)).
  unfold exponent.
  replace (Z.max (ilog2 (Qabs x) - 52) (-1074) + 52)%Z with (ilog2 (Qabs x)) by lia.
  exact Hlo.
Qed.

Lemma round_error_relative (x : Q) :
  pow2 (-1022) <= Qabs x -> Qabs (round x - x) <= pow2 (-53) * Qabs x.
Proof.
  intros Hx. apply (Qle_trans _ _ _ (round_error x)).
  apply (Qle_trans _ (pow2 (-53) * pow2 (exponent x + 52))).
  - rewrite <- pow2_add.
    replace (-53 + (exponent x + 52))%Z with (exponent x + -1)%Z by ring.
    rewrite pow2_add. change (pow2 (-1)) with (/ 2). apply Qle_refl.
  - apply Qmult_le_l; [apply pow2_pos | apply exponent_normal, Hx].
Qed.

Lemma round_below_2048 (x : Q) :
  -(2048) < x < 2048 ->
  -(1 # 8796093022208) <= round x - x <= 1 # 8796093022208.
Proof.
  intros Hx. apply Qabs_Qle_condition.
  apply (@round_error_below x 11); [|discriminate].
  apply Qabs_Qlt_condition. exact Hx.
Qed.

Lemma round_below_1024 (x : Q) :
  -(1024) < x < 1024 ->
  -(1 # 17592186044416) <= round x - x <= 1 # 17592186044416.
Proof.
  intros Hx. apply Qabs_Qle_condition.
  apply (@round_error_below x 10); [|discriminate].
  apply Qabs_Qlt_condition. exact Hx.
Qed.

Lemma half_value (t : Q) : t / 2 == t * (1 # 2).
Proof. field. Qed.

Lemma rounding_allowance_value : rounding_allowance = 1 # 2199023255552.
Proof. vm_compute. reflexivity. Qed.

(** The horizontal placement of a width [P] before rounding. *)
Lemma horizontal_chain (P : Q) :
  0 <= P <= 1140 + (1 # 7000000000000) ->
  -(1 # 4398046511104) <= round P /\ round P <= 1140 + (1 # 3800000000000)
  /\ 50 - rounding_allowance <= round (round (1240 - round P) / 2)
  /\ round (round (1240 - round P) / 2) + round P <= 1190 + rounding_allowance
  /\ Qabs ((round (round (1240 - round P) / 2) - 50)
           - (1190 - (round (round (1240 - round P) / 2) + round P)))
     <= rounding_allowance.
Proof.
  intros HP. rewrite rounding_allowance_value.
  pose proof (@round_below_2048 P) as H1.
  pose proof (@round_below_2048 (1240 - round P)) as H2.
  pose proof (@round_below_1024 (round (1240 - round P) / 2)) as H3.
  pose proof (half_value (round (1240 - round P))) as Eh.
  revert H1 H2 H3 Eh.
  generalize (round (round (1240 - round P) / 2)). intros x.
  generalize (round (1240 - round P) / 2). intros h.
  generalize (round (1240 - round P)). intros t.
  generalize (round P). intros nw.
  intros H1 H2 H3 Eh.
  assert (B1 : -(2048) < P < 2048) by (split; lra).
  specialize (H1 B1).
  assert (B2 : -(2048) < 1240 - nw < 2048) by (split; lra).
  specialize (H2 B2).
  assert (B3 : -(1024) < h < 1024) by (split; lra).
  specialize (H3 B3).
  repeat split; try lra.
  apply Qabs_Qle_condition. split; lra.
Qed.

(** The vertical placement of a height [P] before rounding. *)
Lemma vertical_chain (P : Q) :
  0 <= P <= 1544 + (1 # 5000000000000) ->
  160 - rounding_allowance
    <= round (160 + round (round (1544 - round P) / 2))
  /\ round (160 + round (round (1544 - round P) / 2)) + round P
     <= 1704 + rounding_allowance
  /\ Qabs ((round (160 + round (round (1544 - round P) / 2)) - 160)
           - (1704 - (round (160 + round (round (1544 - round P) / 2)) + round P)))
     <= rounding_allowance.
Proof.
  intros HP. rewrite rounding_allowance_value.
  pose proof (@round_below_2048 P) as H1.
  pose proof (@round_below_2048 (1544 - round P)) as H2.
  pose proof (@round_below_1024 (round (1544 - round P) / 2)) as H3.
  pose proof (@round_below_1024 (160 + round (round (1544 - round P) / 2))) as H4.
  pose proof (half_value (round (1544 - round P))) as Eh.
  revert H1 H2 H3 H4 Eh.
  generalize (round (160 + round (round (1544 - round P) / 2))). intros y.
  generalize (round (round (1544 - round P) / 2)). intros t2.
  generalize (round (1544 - round P) / 2). intros h.
  generalize (round (1544 - round P)). intros t.
  generalize (round P). intros nh.
  intros H1 H2 H3 H4 Eh.
  assert (B1 : -(2048) < P < 2048) by (split; lra).
  specialize (H1 B1).
  assert (B2 : -(2048) < 1544 - nh < 2048) by (split; lra).
  specialize (H2 B2).
  assert (B3 : -(1024) < h < 1024) by (split; lra).
  specialize (H3 B3).
  assert (B4 : -(1024) < 160 + t2 < 1024) by (split; lra).
  specialize (H4 B4).
  repeat split; try lra.
  apply Qabs_Qle_condition. split; lra.
Qed.

Lemma unit_roundoff_value : pow2 (-53) = 1 # 9007199254740992.
Proof. vm_compute. reflexivity. Qed.

(** One quotient [A / w] of line 191 and its rounding. *)
Lemma quotient_rounding (A : Q) (w : Z) :
  1 <= A <= 2048 -> (1 <= w < 4294967296)%Z ->
  0 < A / inject_Z w
  /\ inject_Z w * (A / inject_Z w) == A
  /\ (1 - pow2 (-53)) * (A / inject_Z w) <= round (A / inject_Z w)
  /\ round (A / inject_Z w) <= (1 + pow2 (-53)) * (A / inject_Z w).
Proof.
  intros HA Hw.
  assert (HW1 : inject_Z 1 <= inject_Z w) by (rewrite <- Zle_Qle; lia).
  assert (HW2 : inject_Z w <= inject_Z 4294967296) by (rewrite <- Zle_Qle; lia).
  change (inject_Z 1) with 1 in HW1.
  change (inject_Z 4294967296) with 4294967296 in HW2.
  assert (HW0 : ~ inject_Z w == 0) by lra.
  assert (Ea : inject_Z w * (A / inject_Z w) == A) by (field; exact HW0).
  assert (Ha : 0 < A / inject_Z w).
  { apply Qlt_shift_div_l; lra. }
  assert (Hlow : 1 # 4294967296 <= A / inject_Z w).
  { apply Qle_shift_div_l; lra. }
  assert (Hn : pow2 (-1022) <= Qabs (A / inject_Z w)).
  { rewrite Qabs_pos by lra.
    apply (Qle_trans _ (pow2 (-32))); [apply pow2_le; lia|].
    replace (pow2 (-32)) with (1 # 4294967296) by (vm_compute; reflexivity).
    exact Hlow. }
  pose proof (@round_error_relative (A / inject_Z w) Hn) as He.
  rewrite (Qabs_pos (A / inject_Z w)) in He by lra.
  apply Qabs_Qle_condition in He.
  revert Ea Ha He. generalize (round (A / inject_Z w)). intros q.
  generalize (A / inject_Z w). intros a Ea Ha He.
  repeat split; try lra; exact Ea.
Qed.

Lemma quotient_exceeds_one (z w : Z) :
  z = 1140%Z \/ z = 1544%Z -> (1 <= w < 4294967296)%Z ->
  1 < round (inject_Z z / inject_Z w) -> (w < z)%Z.
Proof.
  intros Hz Hw Hq.
  destruct (Z_lt_le_dec w z) as [Hlt|Hge]; [exact Hlt|exfalso].
  assert (HA : 1 <= inject_Z z <= 2048) by (destruct Hz as [->| ->]; split; discriminate).
  destruct (Z.eq_dec w z) as [->|Hne].
  - revert Hq. destruct Hz as [->| ->]; vm_compute; discriminate.
  - assert (Hw' : inject_Z (z + 1) <= inject_Z w) by (rewrite <- Zle_Qle; lia).
    destruct (@quotient_rounding (inject_Z z) w HA Hw) as (Ha & Ea & _ & Hup).
    rewrite unit_roundoff_value in Hup.
    assert (Hm : inject_Z (z + 1) * (inject_Z z / inject_Z w) <= inject_Z z).
    { rewrite <- Ea at 2. apply Qmult_le_compat_r; [exact Hw' | lra]. }
    revert Hq Ha Hup Hm. generalize (round (inject_Z z / inject_Z w)). intros q.
    generalize (inject_Z z / inject_Z w). intros a Hq Ha Hup Hm.
    destruct Hz as [->| ->].
    + change (inject_Z (1140 + 1)) with 1141 in Hm.
      change (inject_Z 1140) with 1140 in Hm. lra.
    + change (inject_Z (1544 + 1)) with 1545 in Hm.
      change (inject_Z 1544) with 1544 in Hm. lra.
Qed.

Lemma min_le_both (a b : Q) : Double.min a b <= a /\ Double.min a b <= b.
Proof.
  unfold Double.min. destruct (Qle_bool a b) eqn:Ht.
  - apply Qle_bool_iff in Ht. split; [apply Qle_refl | exact Ht].
  - assert (Hlt : b < a).
    { apply Qnot_le_lt. intros H. apply Qle_bool_iff in H. congruence. }
    split; [apply Qlt_le_weak, Hlt | apply Qle_refl].
Qed.

Lemma min_is_one (a b : Q) : Double.min a b = a \/ Double.min a b = b.
Proof. unfold Double.min. destruct (Qle_bool a b); [now left | now right]. Qed.

(** ** C9: where the capture is drawn *)

Example placement_sample :
  drawImage_placement binary64 (mkCanvas 1600 2400)
  = mkPlacement (2897315760275019 # 4503599627370496)
      (4527055875429717 # 4398046511104) 1544
      (926521798339243 # 8796093022208) 160.
Proof. vm_compute. reflexivity. Qed.

(** The rounding written out on [Q] gives the values the Standard
    Library's binary64 gives, on captures of several sizes. *)
Example placement_agrees_with_SpecFloat :
  forallb
    (fun c =>
       let p := drawImage_placement binary64 c in
       let p' := map_Placement Q_of_spec (drawImage_placement binary64_spec c) in
       Qeq_bool (ratio p) (ratio p') && Qeq_bool (newWidth p) (newWidth p')
       && Qeq_bool (newHeight p) (newHeight p') && Qeq_bool (drawX p) (drawX p')
       && Qeq_bool (drawY p) (drawY p'))
    [mkCanvas 1 38; mkCanvas 1 5; mkCanvas 1792 2435; mkCanvas 1600 2400;
     mkCanvas 1140 1544; mkCanvas 1139 1543; mkCanvas 3683 2028277858;
     mkCanvas 4294967295 4294967295; mkCanvas 1 1; mkCanvas 2480 3508]
  = true.
Proof. vm_compute. reflexivity. Qed.

Lemma placement_unfold (canvas : Canvas) :
  drawImage_placement binary64 canvas =
    let W := inject_Z (Z.of_N (width canvas)) in
    let H := inject_Z (Z.of_N (height canvas)) in
    let r := Double.min (round (1140 / W)) (round (1544 / H)) in
    mkPlacement r (round (W * r)) (round (H * r))
      (round (round (1240 - round (W * r)) / 2))
      (round (160 + round (round (1544 - round (H * r)) / 2))).
Proof.
  unfold drawImage_placement, binary64.
  cbn [number a_div a_mul a_add a_sub a_min].
  unfold Double.div, Double.mul, Double.add, Double.sub.
  replace (round (inject_Z (Z.of_N a4Width) - round (inject_Z 50 * inject_Z 2)))
    with 1140 by (vm_compute; reflexivity).
  replace (round (round (inject_Z (Z.of_N a4Height) - inject_Z 160) - inject_Z 50))
    with 1544 by (vm_compute; reflexivity).
  reflexivity.
Qed.

(** C9, as stated, fails in the arithmetic of the code.  For a capture of
    1792 x 2435 the scaled height is [1544 + 2^-42], above the available
    height, and the rectangle starts at [160 - 2^-43], above the content
    start; for a capture of 1 x 5 the space left of the rectangle differs
    from the space right of it. *)
Lemma placement_not_exact :
  ~ fits_exactly (drawImage_placement binary64 (mkCanvas 1792 2435))
  /\ 1544 < newHeight (drawImage_placement binary64 (mkCanvas 1792 2435))
  /\ drawY (drawImage_placement binary64 (mkCanvas 1792 2435)) < 160
  /\ ~ fits_exactly (drawImage_placement binary64 (mkCanvas 1 5)).
Proof.
  assert (E1 : drawImage_placement binary64 (mkCanvas 1792 2435)
               = mkPlacement (5711341129084227 # 9007199254740992)
                   (4997423487948699 # 4398046511104)
                   (6790583813144577 # 4398046511104)
                   (456154185820261 # 8796093022208)
                   (1407374883553279 # 8796093022208))
    by (vm_compute; reflexivity).
  rewrite E1. unfold fits_exactly. cbn [drawX drawY newWidth newHeight].
  repeat split.
  - intros (_ & _ & H & _). revert H. apply Qlt_not_le. reflexivity.
  - intros (_ & _ & _ & _ & H & _). vm_compute in H. discriminate H.
Qed.

(** C9 (amended): for every captured content size [(w, h)] with positive
    dimensions below [2^32], with page 1240 x 1754, margin 50 and content
    start 160, in the double-precision arithmetic of the code: the scale
    factor is the smaller of the two rounded quotients, within a relative
    [2^-53] of [min (1140 / w) (1544 / h)]; it exceeds 1 only when the
    content is smaller than the available area in both dimensions; and the
    scaled content, of size the rounded products [w * ratio] and
    [h * ratio], lies inside the margined region, with equal space left and
    right and equal space above and below, up to [2^-41] of a pixel. *)
Theorem placement_within_rounding (canvas : Canvas) :
  (0 < width canvas < 4294967296)%N ->
  (0 < height canvas < 4294967296)%N ->
  ratio (drawImage_placement binary64 canvas)
  = Double.min (Double.div 1140 (inject_Z (Z.of_N (width canvas))))
      (Double.div 1544 (inject_Z (Z.of_N (height canvas))))
  /\ Qabs (ratio (drawImage_placement binary64 canvas)
           - Qmin (1140 / inject_Z (Z.of_N (width canvas)))
               (1544 / inject_Z (Z.of_N (height canvas))))
     <= pow2 (-53) * Qmin (1140 / inject_Z (Z.of_N (width canvas)))
                       (1544 / inject_Z (Z.of_N (height canvas)))
  /\ (1 < ratio (drawImage_placement binary64 canvas) ->
      (width canvas < 1140)%N /\ (height canvas < 1544)%N)
  /\ newWidth (drawImage_placement binary64 canvas)
     = Double.mul (inject_Z (Z.of_N (width canvas)))
         (ratio (drawImage_placement binary64 canvas))
  /\ newHeight (drawImage_placement binary64 canvas)
     = Double.mul (inject_Z (Z.of_N (height canvas)))
         (ratio (drawImage_placement binary64 canvas))
  /\ 50 - rounding_allowance <= drawX (drawImage_placement binary64 canvas)
  /\ drawX (drawImage_placement binary64 canvas)
     + newWidth (drawImage_placement binary64 canvas)
     <= 1190 + rounding_allowance
  /\ 160 - rounding_allowance <= drawY (drawImage_placement binary64 canvas)
  /\ drawY (drawImage_placement binary64 canvas)
     + newHeight (drawImage_placement binary64 canvas)
     <= 1704 + rounding_allowance
  /\ Qabs ((drawX (drawImage_placement binary64 canvas) - 50)
           - (1190 - (drawX (drawImage_placement binary64 canvas)
                      + newWidth (drawImage_placement binary64 canvas))))
     <= rounding_allowance
  /\ Qabs ((drawY (drawImage_placement binary64 canvas) - 160)
           - (1704 - (drawY (drawImage_placement binary64 canvas)
                      + newHeight (drawImage_placement binary64 canvas))))
     <= rounding_allowance.
Proof.
  intros Hw Hh. rewrite placement_unfold.
  cbn zeta. cbn [ratio newWidth newHeight drawX drawY].
  unfold Double.div, Double.mul.
  set (w := Z.of_N (width canvas)). set (h := Z.of_N (height canvas)).
  assert (Hw' : (1 <= w < 4294967296)%Z) by (unfold w; lia).
  assert (Hh' : (1 <= h < 4294967296)%Z) by (unfold h; lia).
  assert (HW : 1 <= inject_Z w)
    by (change 1 with (inject_Z 1); rewrite <- Zle_Qle; lia).
  assert (HH : 1 <= inject_Z h)
    by (change 1 with (inject_Z 1); rewrite <- Zle_Qle; lia).
  destruct (@quotient_rounding 1140 w ltac:(split; discriminate) Hw')
    as (Ha & Ea & Halo & Hahi).
  destruct (@quotient_rounding 1544 h ltac:(split; discriminate) Hh')
    as (Hb & Eb & Hblo & Hbhi).
  rewrite unit_roundoff_value in *.
  destruct (min_le_both (round (1140 / inject_Z w)) (round (1544 / inject_Z h)))
    as [Hra Hrb].
  pose proof (min_is_one (round (1140 / inject_Z w)) (round (1544 / inject_Z h)))
    as Hr1.
  assert (Hone : 1 < Double.min (round (1140 / inject_Z w)) (round (1544 / inject_Z h)) ->
                 (w < 1140)%Z /\ (h < 1544)%Z).
  { intros H1. split.
    - apply (@quotient_exceeds_one 1140 w); [now left | exact Hw' |].
      apply (Qlt_le_trans _ _ _ H1 Hra).
    - apply (@quotient_exceeds_one 1544 h); [now right | exact Hh' |].
      apply (Qlt_le_trans _ _ _ H1 Hrb). }
  revert Hone Hr1 Hra Hrb.
  generalize (Double.min (round (1140 / inject_Z w)) (round (1544 / inject_Z h))).
  intros r Hone Hr1 Hra Hrb.
  assert (Hr0 : 0 <= r) by (destruct Hr1 as [->| ->]; lra).
  destruct (Q.min_spec (1140 / inject_Z w) (1544 / inject_Z h)) as [[Hlt Em]|[Hle Em]].
  - (* the exact minimum is the horizontal quotient *)
    assert (Hratio : Qabs (r - Qmin (1140 / inject_Z w) (1544 / inject_Z h))
                     <= (1 # 9007199254740992)
                        * Qmin (1140 / inject_Z w) (1544 / inject_Z h)).
    { rewrite Em. apply Qabs_Qle_condition.
      destruct Hr1 as [->| ->]; split; lra. }
    assert (HPw : 0 <= inject_Z w * r <= 1140 + (1 # 7000000000000)).
    { split; [apply Qmult_le_0_compat; lra|].
      apply (Qle_trans _ (inject_Z w * ((1 + (1 # 9007199254740992)) * (1140 / inject_Z w)))).
      - apply Qmult_le_l; lra.
      - rewrite (Qmult_comm (1 + _)), Qmult_assoc, Ea. lra. }
    assert (HPh : 0 <= inject_Z h * r <= 1544 + (1 # 5000000000000)).
    { split; [apply Qmult_le_0_compat; lra|].
      apply (Qle_trans _ (inject_Z h * ((1 + (1 # 9007199254740992)) * (1544 / inject_Z h)))).
      - apply Qmult_le_l; lra.
      - rewrite (Qmult_comm (1 + _)), Qmult_assoc, Eb. lra. }
    destruct (horizontal_chain HPw) as (_ & _ & X1 & X2 & X3).
    destruct (vertical_chain HPh) as (Y1 & Y2 & Y3).
    split; [reflexivity|]. split; [exact Hratio|].
    split; [intros H1; destruct (Hone H1) as [A1 A2]; subst w h; lia|].
    split; [reflexivity|]. split; [reflexivity|].
    repeat split; assumption.
  - (* the exact minimum is the vertical quotient *)
    assert (Hratio : Qabs (r - Qmin (1140 / inject_Z w) (1544 / inject_Z h))
                     <= (1 # 9007199254740992)
                        * Qmin (1140 / inject_Z w) (1544 / inject_Z h)).
    { rewrite Em. apply Qabs_Qle_condition.
      destruct Hr1 as [->| ->]; split; lra. }
    assert (HPw : 0 <= inject_Z w * r <= 1140 + (1 # 7000000000000)).
    { split; [apply Qmult_le_0_compat; lra|].
      apply (Qle_trans _ (inject_Z w * ((1 + (1 # 9007199254740992)) * (1140 / inject_Z w)))).
      - apply Qmult_le_l; lra.
      - rewrite (Qmult_comm (1 + _)), Qmult_assoc, Ea. lra. }
    assert (HPh : 0 <= inject_Z h * r <= 1544 + (1 # 5000000000000)).
    { split; [apply Qmult_le_0_compat; lra|].
      apply (Qle_trans _ (inject_Z h * ((1 + (1 # 9007199254740992)) * (1544 / inject_Z h)))).
      - apply Qmult_le_l; lra.
      - rewrite (Qmult_comm (1 + _)), Qmult_assoc, Eb. lra. }
    destruct (horizontal_chain HPw) as (_ & _ & X1 & X2 & X3).
    destruct (vertical_chain HPh) as (Y1 & Y2 & Y3).
    split; [reflexivity|]. split; [exact Hratio|].
    split; [intros H1; destruct (Hone H1) as [A1 A2]; subst w h; lia|].
    split; [reflexivity|]. split; [reflexivity|].
    repeat split; assumption.
Qed.

(** C9 (amended) at the capture of 1792 x 2435, where exact containment
    fails. *)
Lemma placement_within_rounding_witness :
  160 - rounding_allowance
  <= drawY (drawImage_placement binary64 (mkCanvas 1792 2435))
  /\ drawY (drawImage_placement binary64 (mkCanvas 1792 2435))
     + newHeight (drawImage_placement binary64 (mkCanvas 1792 2435))
     <= 1704 + rounding_allowance.
Proof.
  destruct (@placement_within_rounding (mkCanvas 1792 2435))
    as (_ & _ & _ & _ & _ & _ & _ & Y1 & Y2 & _).
  - cbn [width]. lia.
  - cbn [height]. lia.
  - split; assumption.
Defined.

End DoubleRounding.
